(** * AwsLambdaFunction: change detection, deploy and removal

    A shallow embedding of the [AwsLambdaFunction] component type
    (construct, hydrate, shouldDeploy, pack, deploy, remove, and the three
    provider helpers createLambda, updateLambda, deleteLambda), with the
    properties of its reconciliation logic.

    JavaScript objects that are used as key/value maps (the normalized
    configuration, tags, environment variables, the temporary files) are
    finite maps; the component instance, whose fields are fixed by the
    class, is a record.  The fields hold values of the types the component
    declares for them; the role alone may be missing, as [define] provides
    for, and so may the identifier and the archive, which [deploy] and
    [pack] set.  Code that can throw returns a [result]; code that mutates
    [this] or talks to the outside world lives in the monad [M], which
    keeps the events of a run: what is logged, packed, read and asked of the
    provider, in order.

    [define], which has the framework construct a role when none is given,
    and the handler of the command line follow the component. *)

From stdpp Require Import base option list strings gmap fin_maps pretty.
From Stdlib Require Import ZArith.

Local Open Scope Z_scope.
Local Open Scope string_scope.
Local Open Scope list_scope.

(** ** JavaScript values and errors *)

(** A thrown JavaScript error: its [name] and its [message]. *)
Record Error := mkError { name : string; message : string }.

(** [new Error(msg)] *)
Definition newError (msg : string) : Error :=
  {| name := "Error"; message := msg |}.

(** [Error.prototype.toString]: the name, a colon, the message; one of them
    alone when the other is empty. *)
Definition toString (e : Error) : string :=
  if bool_decide (name e = "") then message e
  else if bool_decide (message e = "") then name e
  else name e +:+ ": " +:+ message e.

(** Reading a property of [undefined] throws a TypeError. *)
Definition typeError (prop : string) : Error :=
  {| name := "TypeError";
     message := "Cannot read property '" +:+ prop +:+ "' of undefined" |}.

#[global] Instance Error_eq_dec : EqDecision Error.
Proof. solve_decision. Defined.

(** The outcome of code that may throw. *)
Inductive result (A : Type) : Type :=
| Ok (a : A)
| Throw (e : Error).
Arguments Ok {A} a.
Arguments Throw {A} e.

#[global] Instance result_ret : MRet result := @Ok.
#[global] Instance result_bind : MBind result := fun A B f r =>
  match r with
  | Ok a => f a
  | Throw e => Throw e
  end.

(** [o.p] where [o] may be [undefined]: the read faults on [undefined]. *)
Definition deref {A : Type} (prop : string) (o : option A) : result A :=
  match o with
  | Some a => Ok a
  | None => Throw (typeError prop)
  end.

(** The values stored in the fields that change detection looks at: strings,
    numbers, arrays of strings (a code location with shims) and flat
    string-to-string objects (tags, environment variables). *)
Inductive value : Type :=
| VUndefined
| VStr (s : string)
| VNum (n : Z)
| VArr (l : list string)
| VObj (m : gmap string string).

#[global] Instance value_eq_dec : EqDecision value.
Proof. solve_decision. Defined.

(** A plain object: a finite map from property names to values. *)
Abbreviation object := (gmap string value).

(** [o.k] on an object: [undefined] when the property is missing. *)
Definition prop (o : object) (k : string) : value :=
  default VUndefined (o !! k).

(** ** The helpers imported from [@serverless/utils] *)

Module Utils.

(** Modelled from the spec: [resolve] is imported from @serverless/utils,
    which is not part of the sources.  It turns a late-bound value into the
    plain value it stands for; the embedding works on values that are
    already plain, on which it is the identity. *)
Definition resolve {A : Type} (x : A) : A := x.

(** Modelled from the spec: [keys] of @serverless/utils, the list of an
    object's own property names. *)
Definition keys (o : object) : list string := (map_to_list o).*1.

(** Modelled from the spec: [pick] of @serverless/utils, the projection of
    an object onto a list of property names.  A name the object does not
    have is skipped. *)
Definition pick (names : list string) (o : object) : object :=
  foldr (fun k acc =>
           match o !! k with
           | Some v => <[k := v]> acc
           | None => acc
           end) ∅ names.

(** Modelled from the spec: [equals] of @serverless/utils, deep equality of
    two objects (same property names, equal values). *)
Definition equals (a b : object) : bool := bool_decide (a = b).

(** Modelled from the spec: [not] of @serverless/utils. *)
Definition not (b : bool) : bool := negb b.

(** Modelled from the spec: [get] of @serverless/utils, a property read that
    tolerates a missing object. *)
Definition get {A B : Type} (f : A -> option B) (o : option A) : option B :=
  o ≫= f.

End Utils.

(** ** The component instance *)

(** The identity reference: an AwsIamRole instance. *)
Record Role := mkRole { roleName : string; roleArn : string }.

(** A code location: one directory, or an array whose first item is the
    directory and whose other items are shim files. *)
Inductive Code : Type :=
| CodeDir (dir : string)
| CodeList (items : list string).

#[global] Instance Code_eq_dec : EqDecision Code.
Proof. solve_decision. Defined.

Definition codeValue (c : Code) : value :=
  match c with
  | CodeDir d => VStr d
  | CodeList l => VArr l
  end.

(** The bytes of a packaged archive. *)
Abbreviation Buffer := string.

(** The inputs handed to [construct]. *)
Record Inputs := mkInputs {
  in_instanceId : string;
  in_role : option Role;
  in_functionName : string;
  in_functionDescription : string;
  in_handler : string;
  in_code : Code;
  in_runtime : string;
  in_memorySize : Z;
  in_timeout : Z;
  in_environment : gmap string string;
  in_tags : gmap string string
}.

(** An instance of the component: [this], and also the previous instance
    that the framework hands to [hydrate], [shouldDeploy] and [deploy]. *)
Record Instance := mkInstance {
  instanceId : string;
  role : option Role;
  functionName : string;
  functionDescription : string;
  handler : string;
  code : Code;
  runtime : string;
  memorySize : Z;
  timeout : Z;
  environment : gmap string string;
  tags : gmap string string;
  hash : string;
  arn : option string;
  zip : option Buffer
}.

Definition set_role (r : option Role) (i : Instance) : Instance :=
  mkInstance (instanceId i) r (functionName i) (functionDescription i)
    (handler i) (code i) (runtime i) (memorySize i) (timeout i)
    (environment i) (tags i) (hash i) (arn i) (zip i).

Definition set_environment (e : gmap string string) (i : Instance) : Instance :=
  mkInstance (instanceId i) (role i) (functionName i) (functionDescription i)
    (handler i) (code i) (runtime i) (memorySize i) (timeout i)
    e (tags i) (hash i) (arn i) (zip i).

Definition set_arn (a : option string) (i : Instance) : Instance :=
  mkInstance (instanceId i) (role i) (functionName i) (functionDescription i)
    (handler i) (code i) (runtime i) (memorySize i) (timeout i)
    (environment i) (tags i) (hash i) a (zip i).

Definition set_zip (z : option Buffer) (i : Instance) : Instance :=
  mkInstance (instanceId i) (role i) (functionName i) (functionDescription i)
    (handler i) (code i) (runtime i) (memorySize i) (timeout i)
    (environment i) (tags i) (hash i) (arn i) z.

(** An instance seen as a plain object, the way [pick] sees it: its data
    properties.  A property holding [undefined] is left out, as it is in a
    previous instance read back from the saved state. *)
Definition roleObject (r : Role) : gmap string string :=
  {[ "roleName" := roleName r; "arn" := roleArn r ]}.

Definition optional (k : string) (v : option value) (o : object) : object :=
  match v with
  | Some x => <[k := x]> o
  | None => o
  end.

Definition toObject (i : Instance) : object :=
  optional "role" (VObj ∘ roleObject <$> role i)
  (optional "arn" (VStr <$> arn i)
  (optional "zip" (VStr <$> zip i)
  (<["instanceId" := VStr (instanceId i)]>
  (<["functionName" := VStr (functionName i)]>
  (<["functionDescription" := VStr (functionDescription i)]>
  (<["handler" := VStr (handler i)]>
  (<["code" := codeValue (code i)]>
  (<["runtime" := VStr (runtime i)]>
  (<["memorySize" := VNum (memorySize i)]>
  (<["timeout" := VNum (timeout i)]>
  (<["environment" := VObj (environment i)]>
  (<["tags" := VObj (tags i)]>
  (<["hash" := VStr (hash i)]> ∅))))))))))))).

(** ** shouldDeploy *)

(** The names of the normalized configuration, in the order of the object
    literal in [shouldDeploy]. *)
Definition configNames : list string :=
  ["functionName"; "functionDescription"; "handler"; "code"; "runtime";
   "memorySize"; "timeout"; "hash"; "tags"].

(** [currentConfig]: the object literal built from [this].  The
    [environment] entry is commented out in the source and is absent here. *)
Definition currentConfig (this : Instance) : object :=
  list_to_map
    [("functionName", VStr (Utils.resolve (functionName this)));
     ("functionDescription", VStr (Utils.resolve (functionDescription this)));
     ("handler", VStr (Utils.resolve (handler this)));
     ("code", codeValue (Utils.resolve (code this)));
     ("runtime", VStr (Utils.resolve (runtime this)));
     ("memorySize", VNum (Utils.resolve (memorySize this)));
     ("timeout", VNum (Utils.resolve (timeout this)));
     ("hash", VStr (Utils.resolve (hash this)));
     ("tags", VObj (Utils.resolve (tags this)))].

(** [prevConfig = prevInstance ? pick(keys(currentConfig), prevInstance) : {}] *)
Definition prevConfig (this : Instance) (prevInstance : option Instance) : object :=
  match prevInstance with
  | Some p => Utils.pick (Utils.keys (currentConfig this)) (toObject p)
  | None => ∅
  end.

(** [configChanged = not(equals(currentConfig, prevConfig))] *)
Definition configChanged (this : Instance) (prevInstance : option Instance) : bool :=
  Utils.not (Utils.equals (currentConfig this) (prevConfig this prevInstance)).

(** [roleChanged = prevInstance
       ? resolve(this.role).roleName !== prevInstance.role.roleName : true].
    Both property reads fault when the role they are made on is missing;
    the left operand is evaluated first. *)
Definition roleChanged (this : Instance) (prevInstance : option Instance) : result bool :=
  match prevInstance with
  | Some p =>
      r ← deref "roleName" (Utils.resolve (role this));
      rp ← deref "roleName" (role p);
      mret (bool_decide (roleName r ≠ roleName rp))
  | None => mret true
  end.

(** What [shouldDeploy] returns: ['replace'], ['deploy'], or nothing
    ([undefined]) when it falls off its end. *)
Definition shouldDeploy (this : Instance) (prevInstance : option Instance)
  : result (option string) :=
  let currentConfig := currentConfig this in
  let configChanged := configChanged this prevInstance in
  roleChanged ← roleChanged this prevInstance;
  if match prevInstance with
     | Some p =>
         bool_decide (VStr (functionName p) ≠ prop currentConfig "functionName")
     | None => false
     end
  then mret (Some "replace")
  else if negb (bool_decide (is_Some prevInstance)) || configChanged || roleChanged
  then mret (Some "deploy")
  else mret None.

(** The three decisions of the reconciliation engine, and the one that a
    return value of [shouldDeploy] stands for: ['replace'], ['deploy'], and
    no value for nothing to do. *)
Inductive ReconcileDecision : Type := NoOp | Deploy | Replace.

Definition decision (ret : option string) : option ReconcileDecision :=
  match ret with
  | None => Some NoOp
  | Some s =>
      if bool_decide (s = "deploy") then Some Deploy
      else if bool_decide (s = "replace") then Some Replace
      else None
  end.


(** ** The outside world: the code directories, the hashing and packaging
       collaborators, the provider *)

(** The content of a directory: its files, each with the path segments that
    lead to it from the directory's root, and its content. *)
Abbreviation Listing := (list (list string * string)).

(** The parameters of the four provider calls. *)
Record CreateParams := mkCreateParams {
  c_FunctionName : string;
  c_ZipFile : option Buffer;
  c_Description : string;
  c_Handler : string;
  c_MemorySize : Z;
  c_Publish : bool;
  c_Role : string;
  c_Runtime : string;
  c_Timeout : Z;
  c_Variables : gmap string string
}.

Record CodeParams := mkCodeParams {
  u_FunctionName : string;
  u_ZipFile : option Buffer;
  u_Publish : bool
}.

Record ConfigParams := mkConfigParams {
  g_FunctionName : string;
  g_Description : string;
  g_Handler : string;
  g_MemorySize : Z;
  g_Role : string;
  g_Runtime : string;
  g_Timeout : Z;
  g_Variables : gmap string string
}.

Record DeleteParams := mkDeleteParams { d_FunctionName : string }.

Inductive request : Type :=
| createFunction (p : CreateParams)
| updateFunctionCode (p : CodeParams)
| updateFunctionConfiguration (p : ConfigParams)
| deleteFunction (p : DeleteParams).

(** What the provider answers: the remote-assigned identifier. *)
Record Response := mkResponse { FunctionArn : string }.

(** What a method does that can be seen from outside, in order. *)
Inductive event : Type :=
| Log (msg : string)
| PackDir (input : option string) (output : string) (shims : list string)
| ReadFileSync (path : string)
| Call (req : request) (res : result Response).

(** The world a method runs in.  [disk] holds the code directories, and
    [nowhere] what a collaborator finds when the path it is handed is
    [undefined], if it finds anything; [ioError] is the error it raises for
    a folder it does not find, and [leftover] what a packaging that fails
    leaves in its output file, if anything.  [digest] is the hash function
    behind [hashElement], [archiver] the archive format behind [packDir],
    [now] is [Date.now()], [tmpdir] is [os.tmpdir()], [path_join] is
    [path.join], and [lambda] is the provider: any answer to any call. *)
Record World := mkWorld {
  disk : gmap string Listing;
  nowhere : option Listing;
  ioError : option string -> Error;
  leftover : option Buffer;
  digest : Listing -> string;
  archiver : Listing -> list string -> Buffer;
  now : Z;
  tmpdir : string;
  path_join : string -> string -> string;
  lambda : request -> result Response
}.

Definition set_disk (d : gmap string Listing) (w : World) : World :=
  mkWorld d (nowhere w) (ioError w) (leftover w) (digest w) (archiver w)
    (now w) (tmpdir w) (path_join w) (lambda w).

(** The folder a collaborator finds under the path it is handed. *)
Definition folderListing (w : World) (folder : option string) : option Listing :=
  match folder with
  | Some p => disk w !! p
  | None => nowhere w
  end.

(** The options handed to [hashElement]: [{ folders: { exclude } }]. *)
Record HashOptions := mkHashOptions { folders_exclude : list string }.

Record HashObj := mkHashObj { hashObj_hash : string }.

(** A file is hidden by an exclusion list when one of the folders on its
    path carries an excluded name. *)
Definition underExcluded (exclude : list string) (segments : list string) : bool :=
  existsb (fun s => bool_decide (s ∈ exclude)) (removelast segments).

Definition visible (exclude : list string) (d : Listing) : Listing :=
  List.filter (fun f => negb (underExcluded exclude f.1)) d.

(** Modelled from the spec: the fixed set of dependency-cache directory
    names that packaging leaves out, the same set that hashing is told to
    leave out. *)
Definition dependencyCaches : list string := ["node_modules"].

(** [String.prototype.includes] *)
Fixpoint includes (needle hay : string) : bool :=
  String.prefix needle hay ||
  match hay with
  | EmptyString => false
  | String _ rest => includes needle rest
  end.

(** The directory of a code location, [folderToHash] in [construct] and
    [inputDirPath] in [pack]: [this.code], or [this.code[0]] when
    [isArray(this.code)]; [undefined] for an empty array. *)
Definition codeFolder (c : Code) : option string :=
  match c with
  | CodeList items => head items
  | CodeDir dir => Some dir
  end.

(** The shims of a code location: [this.code.slice()] after [shift()], and
    none when the code location is not an array. *)
Definition codeShims (c : Code) : list string :=
  match c with
  | CodeList items => tail items
  | CodeDir _ => []
  end.

(** The parameter objects of [createLambda] and [updateLambda], built from
    the fields of the instance; [r] is the role that [role.arn] is read
    from. *)
Definition createParams (self : Instance) (r : Role) : CreateParams :=
  {| c_FunctionName := functionName self;
     c_ZipFile := zip self;
     c_Description := functionDescription self;
     c_Handler := handler self;
     c_MemorySize := memorySize self;
     c_Publish := true;
     c_Role := roleArn r;
     c_Runtime := runtime self;
     c_Timeout := timeout self;
     c_Variables := environment self |}.

Definition functionCodeParams (self : Instance) : CodeParams :=
  {| u_FunctionName := functionName self;
     u_ZipFile := zip self;
     u_Publish := true |}.

Definition functionConfigParams (self : Instance) (r : Role) : ConfigParams :=
  {| g_FunctionName := functionName self;
     g_Description := functionDescription self;
     g_Handler := handler self;
     g_MemorySize := memorySize self;
     g_Role := roleArn r;
     g_Runtime := runtime self;
     g_Timeout := timeout self;
     g_Variables := environment self |}.

Section Methods.

Variable w : World.

(** Modelled from the spec: [hashElement] of the folder-hash package, the
    fingerprint collaborator [fingerprintDirectory(path, ignore) -> hash]:
    the world's [digest] of the directory's files that no excluded folder
    hides.  Hashing a folder that is not found is an I/O failure: the error
    is the world's. *)
Definition hashElement (folder : option string) (options : HashOptions)
  : result HashObj :=
  match folderListing w folder with
  | Some d => Ok (mkHashObj (digest w (visible (folders_exclude options) d)))
  | None => Throw (ioError w folder)
  end.

(** *** construct *)

(** [construct(inputs, context)].  [super.construct], of the framework's
    base class, supplies the instance identifier and touches no field of
    this class. *)
Definition construct (inputs : Inputs) : result Instance :=
  let options := {| folders_exclude := ["node_modules"] |} in
  let code := Utils.resolve (in_code inputs) in
  let folderToHash := codeFolder code in
  hashObj ← hashElement folderToHash options;
  mret {| instanceId := in_instanceId inputs;
          role := in_role inputs;
          functionName := in_functionName inputs;
          functionDescription := in_functionDescription inputs;
          handler := in_handler inputs;
          code := code;
          runtime := in_runtime inputs;
          memorySize := in_memorySize inputs;
          timeout := in_timeout inputs;
          environment := in_environment inputs;
          tags := in_tags inputs;
          hash := hashObj_hash hashObj;
          arn := None;
          zip := None |}.

(** *** hydrate, getId *)

(** Modelled from the spec: [super.hydrate] of the framework's base class,
    which is not part of the sources.  Rehydration restores no field of this
    class but the one that [hydrate] itself sets. *)
Definition super_hydrate (prevInstance : option Instance) (this : Instance)
  : Instance := this.

(** [hydrate(prevInstance)]: [super.hydrate(prevInstance)], then
    [this.arn = get('arn', prevInstance)]. *)
Definition hydrate (prevInstance : option Instance) (this : Instance) : Instance :=
  set_arn (Utils.get arn prevInstance) (super_hydrate prevInstance this).

Definition getId (this : Instance) : option string := arn this.

(** *** The monad of the methods that act *)

(** What a method changes: [this], and the files under the temporary
    directory. *)
Record St := mkSt { this : Instance; tmpfiles : gmap string Buffer }.

(** A method run: its outcome, the state it leaves (also when it throws)
    and the events it caused. *)
Definition M (A : Type) : Type := St -> result A * St * list event.

#[global] Instance M_ret : MRet M := fun A a st => (Ok a, st, []).
#[global] Instance M_bind : MBind M := fun A B f m st =>
  match m st with
  | (Ok a, st1, ev1) =>
      match f a st1 with
      | (r, st2, ev2) => (r, st2, ev1 ++ ev2)
      end
  | (Throw e, st1, ev1) => (Throw e, st1, ev1)
  end.

Definition throw {A : Type} (e : Error) : M A := fun st => (Throw e, st, []).

Definition lift {A : Type} (r : result A) : M A := fun st => (r, st, []).

Definition getThis : M Instance := fun st => (Ok (this st), st, []).

Definition modifyThis (f : Instance -> Instance) : M unit :=
  fun st => (Ok tt, mkSt (f (this st)) (tmpfiles st), []).

Definition emit (e : event) : M unit := fun st => (Ok tt, st, [e]).

(** [try { m } catch (error) { h error }] *)
Definition tryCatch {A : Type} (m : M A) (h : Error -> M A) : M A := fun st =>
  match m st with
  | (Ok a, st1, ev1) => (Ok a, st1, ev1)
  | (Throw e, st1, ev1) =>
      match h e st1 with
      | (r, st2, ev2) => (r, st2, ev1 ++ ev2)
      end
  end.

(** [context.log(msg)] *)
Definition log (msg : string) : M unit := emit (Log msg).

(** [Lambda.<call>(params).promise()], awaited. *)
Definition call (req : request) : M Response := fun st =>
  (lambda w req, st, [Call req (lambda w req)]).

(** Modelled from the spec: [packDir] of @serverless/utils, the packaging
    collaborator [archiveDirectory(path, auxFiles) -> filePath]: it reads
    the directory it is given and writes to the output file the archive, in
    the world's format, of the auxiliary files and of the files of the
    directory that no dependency-cache directory hides.  Archiving a folder
    that is not found is an I/O failure: the error is the world's, and so is
    what the output file is left with. *)
Definition packDir (input : option string) (output : string) (shims : list string)
  : M unit := fun st =>
  match folderListing w input with
  | Some d =>
      (Ok tt,
       mkSt (this st)
         (<[output := archiver w (visible dependencyCaches d) shims]> (tmpfiles st)),
       [PackDir input output shims])
  | None =>
      (Throw (ioError w input),
       mkSt (this st)
         (match leftover w with
          | Some b => <[output := b]> (tmpfiles st)
          | None => tmpfiles st
          end),
       [PackDir input output shims])
  end.

(** [readFileSync(path)] of a file under the temporary directory. *)
Definition readFileSync (path : string) : M Buffer := fun st =>
  match tmpfiles st !! path with
  | Some b => (Ok b, st, [ReadFileSync path])
  | None => (Throw (ioError w (Some path)), st, [ReadFileSync path])
  end.

(** *** pack *)

Definition pack : M Buffer :=
  self ← getThis;
  let shims := codeShims (code self) in
  let inputDirPath := codeFolder (code self) in
  let outputFileName := instanceId self +:+ "-" +:+ pretty (now w) +:+ ".zip" in
  let outputFilePath := path_join w (tmpdir w) outputFileName in
  packDir inputDirPath outputFilePath shims;;
  buf ← readFileSync outputFilePath;
  modifyThis (set_zip (Some buf));;
  mret buf.

(** *** createLambda, updateLambda, deleteLambda *)

(** [role.arn] is read while the parameter object is built, before the
    call: a missing role faults there. *)
Definition createLambda (self : Instance) : M string :=
  r ← lift (deref "arn" (role self));
  let params := createParams self r in
  res ← call (createFunction params);
  mret (FunctionArn res).

(** Both parameter objects are built before the first call. *)
Definition updateLambda (self : Instance) : M string :=
  let functionCodeParams := functionCodeParams self in
  r ← lift (deref "arn" (role self));
  let functionConfigParams := functionConfigParams self r in
  call (updateFunctionCode functionCodeParams);;
  res ← call (updateFunctionConfiguration functionConfigParams);
  mret (FunctionArn res).

Definition deleteLambda (name : string) : M unit :=
  let params := {| d_FunctionName := name |} in
  call (deleteFunction params);;
  mret tt.

(** *** deploy *)

(** The test of [deploy]:
    [!prevInstance || this.functionName !== prevInstance.functionName]. *)
Definition createBranch (self : Instance) (prevInstance : option Instance) : bool :=
  match prevInstance with
  | None => true
  | Some p => bool_decide (functionName self ≠ functionName p)
  end.

Definition deploy (prevInstance : option Instance) : M unit :=
  pack;;
  self ← getThis;
  if createBranch self prevInstance then
    log ("Creating Lambda: " +:+ functionName self);;
    a ← createLambda self;
    modifyThis (set_arn (Some a))
  else
    log ("Updating Lambda: " +:+ functionName self);;
    a ← updateLambda self;
    modifyThis (set_arn (Some a)).

(** *** remove *)

Definition remove : M unit :=
  self ← getThis;
  let functionName := functionName self in
  log ("Removing Lambda: " +:+ functionName);;
  tryCatch (deleteLambda functionName)
    (fun error =>
       if negb (includes "Function not found" (message error))
       then throw (newError (toString error))
       else mret tt).

End Methods.

(** ** Reading a run *)

(** The provider calls among the events of a run, in order. *)
Definition calls (evs : list event) : list request :=
  omap (fun e => match e with Call req _ => Some req | _ => None end) evs.

Definition isCreate (req : request) : bool :=
  match req with createFunction _ => true | _ => false end.

(** The three components of a run. *)
Definition outcome {A : Type} (r : result A * St * list event) : result A := r.1.1.
Definition final {A : Type} (r : result A * St * list event) : St := r.1.2.
Definition events {A : Type} (r : result A * St * list event) : list event := r.2.

Definition isConfigurationUpdate (req : request) : bool :=
  match req with updateFunctionConfiguration _ => true | _ => false end.

(** The file that [pack] writes and reads back:
    [path.join(tmpdir(), `${this.instanceId}-${Date.now()}.zip`)]. *)
Definition outputFilePath (w : World) (self : Instance) : string :=
  path_join w (tmpdir w) (instanceId self +:+ "-" +:+ pretty (now w) +:+ ".zip").

(** ** The vocabulary of the properties *)

(** The current instance and the previous one agree on every field of the
    normalized configuration. *)
Definition sameConfiguration (this p : Instance) : Prop :=
  functionName this = functionName p ∧
  functionDescription this = functionDescription p ∧
  handler this = handler p ∧
  code this = code p ∧
  runtime this = runtime p ∧
  memorySize this = memorySize p ∧
  timeout this = timeout p ∧
  hash this = hash p ∧
  tags this = tags p.

#[global] Instance sameConfiguration_dec (this p : Instance) :
  Decision (sameConfiguration this p).
Proof. unfold sameConfiguration. apply _. Defined.

(** Both carry an identity reference, and the two have the same name. *)
Definition sameRoleName (this p : Instance) : Prop :=
  ∃ rc rp, role this = Some rc ∧ role p = Some rp ∧ roleName rc = roleName rp.

(** A deploy that issues exactly one create call and nothing else. *)
Definition createOnly (cs : list request) : Prop :=
  ∃ p, cs = [createFunction p].

(** A deploy that issues the code update and then the configuration update,
    both against [name], and nothing else. *)
Definition updateSequence (name : string) (cs : list request) : Prop :=
  ∃ cp gp,
    cs = [updateFunctionCode cp; updateFunctionConfiguration gp] ∧
    u_FunctionName cp = name ∧ g_FunctionName gp = name.

(** Every deploy issues the calls of its branch, whatever else happens. *)
Definition deployAlwaysCalls : Prop :=
  ∀ (w : World) (prev : option Instance) (st : St),
    let cs := calls (events (deploy w prev st)) in
    if createBranch (this st) prev then createOnly cs
    else updateSequence (functionName (this st)) cs.

(** [deploy] has no [return]: a deploy that completes resolves with
    [undefined], and what it hands over is the identifier it leaves in
    [this.arn], the one [getId] returns. *)
Definition delivers (run : result unit * St * list event) (id : string) : Prop :=
  outcome run = Ok tt ∧ getId (this (final run)) = Some id.

(** Every deploy in which a provider call succeeds hands over the
    identifier that its create call or its configuration update
    answered. *)
Definition deployDeliversIdentifier : Prop :=
  ∀ (w : World) (prev : option Instance) (st : St)
    (req : request) (res : Response),
    Call req (Ok res) ∈ events (deploy w prev st) →
    ∃ req' res',
      Call req' (Ok res') ∈ events (deploy w prev st) ∧
      isCreate req' || isConfigurationUpdate req' = true ∧
      delivers (deploy w prev st) (FunctionArn res').

(** The fingerprint does not see what lies under an excluded folder: two
    disks whose code directory shows the same files give the same
    instance. *)
Definition fingerprintExcludes (exclude : list string) : Prop :=
  ∀ (w : World) (dk1 dk2 : gmap string Listing) (inputs : Inputs)
    (p : string) (d1 d2 : Listing),
    codeFolder (in_code inputs) = Some p →
    dk1 !! p = Some d1 → dk2 !! p = Some d2 →
    visible exclude d1 = visible exclude d2 →
    construct (set_disk dk1 w) inputs = construct (set_disk dk2 w) inputs.

(** The archive does not see what lies under an excluded folder. *)
Definition archiveExcludes (exclude : list string) : Prop :=
  ∀ (w : World) (dk1 dk2 : gmap string Listing) (st : St)
    (p : string) (d1 d2 : Listing),
    codeFolder (code (this st)) = Some p →
    dk1 !! p = Some d1 → dk2 !! p = Some d2 →
    visible exclude d1 = visible exclude d2 →
    outcome (pack (set_disk dk1 w) st) = outcome (pack (set_disk dk2 w) st).

(** ** Sample data *)

Module Sample.

(** A readable stand-in for an archive format and for a hash: the list of
    the files with their content, then the shims. *)
Definition serialize (d : Listing) (shims : list string) : string :=
  String.concat ";" (List.map (fun f => String.concat "/" f.1 +:+ "=" +:+ f.2) d)
  +:+ "|" +:+ String.concat ";" shims.

Definition codeV1 : Listing :=
  [(["index.js"], "exports.handler");
   (["node_modules"; "dep"; "index.js"], "v1")].

Definition codeV2 : Listing :=
  [(["index.js"], "exports.handler");
   (["node_modules"; "dep"; "index.js"], "v2")].

(** A provider that accepts every call, and reports a function it is asked
    to delete as not found. *)
Definition provider (req : request) : result Response :=
  match req with
  | createFunction p => Ok (mkResponse ("arn:created:" +:+ c_FunctionName p))
  | updateFunctionCode p => Ok (mkResponse ("arn:code:" +:+ u_FunctionName p))
  | updateFunctionConfiguration p =>
      Ok (mkResponse ("arn:configured:" +:+ g_FunctionName p))
  | deleteFunction p =>
      Throw (mkError "ResourceNotFoundException"
               ("Function not found: " +:+ d_FunctionName p))
  end.

(** The code directory in two states that differ under node_modules only. *)
Definition diskV1 : gmap string Listing := {[ "./code" := codeV1 ]}.
Definition diskV2 : gmap string Listing := {[ "./code" := codeV2 ]}.

(** The error of a folder that is not there. *)
Definition notFound (folder : option string) : Error :=
  mkError "Error" ("no such directory: " +:+ default "undefined" folder).

Definition join (dir file : string) : string := dir +:+ "/" +:+ file.

Definition world : World :=
  mkWorld diskV1 None notFound None (fun d => serialize d []) serialize
    1700 "/tmp" join provider.

Definition execRole : Role := mkRole "fn-a-execution-role" "arn:role:1".
Definition recreatedRole : Role := mkRole "fn-a-execution-role" "arn:role:2".

Definition inputsA : Inputs :=
  mkInputs "id" (Some execRole) "fn-a" "a function" "index.handler"
    (CodeDir "./code") "nodejs8.10" 512 30 ∅ ∅.

Definition fnA : Instance :=
  mkInstance "id" (Some execRole) "fn-a" "a function" "index.handler"
    (CodeDir "./code") "nodejs8.10" 512 30 ∅ ∅ "h1" None None.

Definition fnB : Instance :=
  mkInstance "id" (Some execRole) "fn-b" "a function" "index.handler"
    (CodeDir "./code") "nodejs8.10" 512 30 ∅ ∅ "h1" None None.

(** [fnA] as it was saved after a deploy. *)
Definition deployedA : Instance := set_arn (Some "id-1") fnA.

(** [fnA] with one more environment variable. *)
Definition fnAStaged : Instance := set_environment {[ "STAGE" := "prod" ]} fnA.

(** [fnA] whose role was recreated out of band: same name, new identifier. *)
Definition fnARecreated : Instance := set_role (Some recreatedRole) fnA.

(** A saved instance that has lost its role. *)
Definition roleless : Instance := set_role None deployedA.

End Sample.

(** ** define *)

(** What [define] asks the framework to construct: an AwsIamRole with these
    inputs (and the provider of the function). *)
Record RoleInputs := mkRoleInputs { ri_roleName : string; ri_service : string }.

Section Define.

(** [context.construct(AwsIamRole, inputs, context)], of the framework: any
    answer to any request. *)
Variable context_construct : RoleInputs -> result Role.

(** [define(context)]: the role of the instance, constructed when the
    instance has none; it returns [{ role }] and leaves the role in
    [this.role]. *)
Definition define (this : Instance) : result (Role * Instance) :=
  match Utils.resolve (role this) with
  | Some role => mret (role, this)
  | None =>
      role ← context_construct
               {| ri_roleName := Utils.resolve (functionName this) +:+ "-execution-role";
                  ri_service := "lambda.amazonaws.com" |};
      mret (role, set_role (Some role) this)
  end.

End Define.

(** ** The command line handler *)

Module Cli.

(** What minimist puts in its result: strings, numbers (taken to be
    integers) and booleans, and arrays of them for an option that is given
    more than once. *)
Inductive prim : Type :=
| PBool (b : bool)
| PNum (n : Z)
| PStr (s : string).

Inductive jsv : Type :=
| JPrim (p : prim)
| JArr (l : list prim).

#[global] Instance prim_eq_dec : EqDecision prim.
Proof. solve_decision. Defined.

#[global] Instance jsv_eq_dec : EqDecision jsv.
Proof. solve_decision. Defined.

(** Truthiness: [false], [0] and the empty string are falsy, and so is a
    missing property; an array is truthy. *)
Definition truthyPrim (p : prim) : bool :=
  match p with
  | PBool b => b
  | PNum n => bool_decide (n ≠ 0)
  | PStr s => bool_decide (s ≠ "")
  end.

Definition truthy (v : option jsv) : bool :=
  match v with
  | None => false
  | Some (JPrim p) => truthyPrim p
  | Some (JArr _) => true
  end.

(** [a || b] *)
Definition or_ (a b : option jsv) : option jsv := if truthy a then a else b.

(** [a || d] where [d] is truthy. *)
Definition orDefault (a : option jsv) (d : jsv) : jsv :=
  match a with
  | Some v => if truthy a then v else d
  | None => d
  end.

(** The string a value turns into in a template literal, as a property key
    or in [process.env]. *)
Definition toStrPrim (p : prim) : string :=
  match p with
  | PBool b => if b then "true" else "false"
  | PNum n => pretty n
  | PStr s => s
  end.

Definition toStr (v : jsv) : string :=
  match v with
  | JPrim p => toStrPrim p
  | JArr l => String.concat "," (toStrPrim <$> l)
  end.

(** The parsed arguments: [args._], the positional ones, and the options. *)
Record Args := mkArgs {
  positional : list prim;
  options : gmap string jsv
}.

(** [args] as the object it is. *)
Definition argsObject (args : Args) : gmap string jsv :=
  <["_" := JArr (positional args)]> (options args).

(** A command of [./commands]: called with the configuration, the CLI and,
    for [run], the name of the command; it completes or throws. *)
Definition Handler : Type := gmap string jsv -> option prim -> result unit.

(** What a property read on the commands object can find besides a
    command: a function that the object inherits, or a value that is not a
    function, truthy or not. *)
Inductive Property : Type :=
| Function (f : Handler)
| Value (isTruthy : bool).

(** What the handler reads from its surroundings.  [commands_intl] and
    [commands_cn] hold the commands that the two modules export, and
    [inherited] the properties that such an object inherits; [path_join] is
    [path.join]. *)
Record Host := mkHost {
  cwd : string;
  path_join : string -> string -> string;
  instanceConfig : option (gmap string jsv);
  fileExistsSync : string -> bool;
  dotenv_config : string -> gmap string string -> gmap string string;
  isChinaUser : bool;
  commands_intl : gmap string Handler;
  commands_cn : gmap string Handler;
  inherited : gmap string Property
}.

(** What a run of the handler does that can be seen from outside. *)
Inductive event : Type :=
| DotenvConfig (path : string)
| NewCLI (config : gmap string jsv)
| LogVersion
| Invoke (name : string) (config : gmap string jsv) (command : option prim)
| CliError (e : Error).

(** [process.env.NAME] read as a condition: set and not empty. *)
Definition envSet (env : gmap string string) (name : string) : bool :=
  match env !! name with
  | Some v => bool_decide (v ≠ "")
  | None => false
  end.

Definition notAFunction (what : string) : Error :=
  {| name := "TypeError"; message := what +:+ " is not a function" |}.

Section Handler.

Variable h : Host.
Variable args : Args.

(** *** When the module is loaded *)

(** [instanceConfig && instanceConfig.stage]: the stage of the instance
    configuration when there is one; a missing configuration is as falsy as
    a missing stage. *)
Definition instanceStage : option jsv :=
  match instanceConfig h with
  | Some c => c !! "stage"
  | None => None
  end.

(** [args.stage || (instanceConfig && instanceConfig.stage) || 'dev'] *)
Definition stage : jsv :=
  orDefault (or_ (options args !! "stage") instanceStage) (JPrim (PStr "dev")).

Definition defaultEnvFilePath : string := path_join h (cwd h) ".env".

Definition stageEnvFilePath : string :=
  path_join h (cwd h) (".env." +:+ toStr stage).

(** The environment files: [dotenv.config] on the file of the stage, or
    else on the default one.  [path.resolve] of these paths, which start at
    the working directory, is the path itself. *)
Definition loadEnv (env : gmap string string) : gmap string string * list event :=
  if truthy (Some stage) && fileExistsSync h stageEnvFilePath
  then (dotenv_config h stageEnvFilePath env, [DotenvConfig stageEnvFilePath])
  else if fileExistsSync h defaultEnvFilePath
  then (dotenv_config h defaultEnvFilePath env, [DotenvConfig defaultEnvFilePath])
  else (env, []).

(** [commands]: [./commands-cn] for a user in China, [./commands]
    otherwise. *)
Definition commands : gmap string Handler :=
  if isChinaUser h then commands_cn h else commands_intl h.

(** *** The exported function *)

(** [args._[0] || 'deploy'] *)
Definition command : prim :=
  match positional args !! 0%nat with
  | Some p => if truthyPrim p then p else PStr "deploy"
  | None => PStr "deploy"
  end.

(** [if (args._[i]) { params.push(args._[i]) }] *)
Definition pushIf (i : nat) (params : list prim) : list prim :=
  match positional args !! i with
  | Some p => if truthyPrim p then params ++ [p] else params
  | None => params
  end.

Definition params : list prim :=
  pushIf 4 (pushIf 3 (pushIf 2 (pushIf 1 []))).

(** [config]: [{ ...args, params }] without [_], then [platformStage] and
    [debug]. *)
Definition config (env : gmap string string) : gmap string jsv :=
  let config := <["params" := JArr params]> (argsObject args) in
  let config := if truthy (config !! "_") then delete "_" config else config in
  let config :=
    <["platformStage" :=
        JPrim (PStr (if envSet env "SERVERLESS_PLATFORM_STAGE"
                     then default "" (env !! "SERVERLESS_PLATFORM_STAGE")
                     else "prod"))]> config in
  <["debug" :=
      if envSet env "SLS_DEBUG"
      then JPrim (PStr (default "" (env !! "SLS_DEBUG")))
      else JPrim (PBool (truthy (options args !! "debug")))]> config.

(** [if (args.stage && !process.env.SERVERLESS_STAGE)
       process.env.SERVERLESS_STAGE = args.stage] *)
Definition withStage (env : gmap string string) : gmap string string :=
  match options args !! "stage" with
  | Some v =>
      if truthy (Some v) && negb (envSet env "SERVERLESS_STAGE")
      then <["SERVERLESS_STAGE" := toStr v]> env
      else env
  | None => env
  end.

(** [args._[0] === 'version' || args.version || args.v] *)
Definition checkingVersion : bool :=
  bool_decide (positional args !! 0%nat = Some (PStr "version"))
  || truthy (options args !! "version")
  || truthy (options args !! "v").

(** [commands[name]]: a command of the module, or else what the object
    inherits under that name. *)
Definition property (name : string) : option Property :=
  match commands !! name with
  | Some f => Some (Function f)
  | None => inherited h !! name
  end.

(** [commands.run(config, cli, command)]; calling what is not a function
    is a TypeError. *)
Definition runCommand (cfg : gmap string jsv) : result unit * list event :=
  match property "run" with
  | Some (Function run) =>
      (run cfg (Some command), [Invoke "run" cfg (Some command)])
  | _ => (Throw (notAFunction "commands.run"), [])
  end.

(** The body of the [try]: what [commands[command]] finds is called when it
    is truthy, and [run] is called with the name of the command
    otherwise. *)
Definition dispatch (cfg : gmap string jsv) : result unit * list event :=
  match property (toStrPrim command) with
  | Some (Function f) => (f cfg None, [Invoke (toStrPrim command) cfg None])
  | Some (Value true) => (Throw (notAFunction "commands[command]"), [])
  | Some (Value false) | None => runCommand cfg
  end.

(** The exported function: the environment it leaves and what it did. *)
Definition main (env : gmap string string) : gmap string string * list event :=
  let config := config env in
  let env := withStage env in
  if checkingVersion then (env, [NewCLI config; LogVersion])
  else
    match dispatch config with
    | (Ok _, evs) => (env, NewCLI config :: evs)
    | (Throw e, evs) => (env, NewCLI config :: evs ++ [CliError e])
    end.

(** Loading the module, then calling what it exports. *)
Definition start (env : gmap string string) : gmap string string * list event :=
  let '(env1, loaded) := loadEnv env in
  let '(env2, done) := main env1 in
  (env2, loaded ++ done).

End Handler.

End Cli.

(** A call that deletes. *)
Definition isDelete (req : request) : bool :=
  match req with deleteFunction _ => true | _ => false end.

(** Events of the command line handler, by kind. *)
Definition isInvoke (e : Cli.event) : bool :=
  match e with Cli.Invoke _ _ _ => true | _ => false end.

Definition isCliError (e : Cli.event) : bool :=
  match e with Cli.CliError _ => true | _ => false end.

(** ** More sample data *)

Module Outage.

(** A provider that takes the code of a function and refuses everything
    else. *)
Definition provider (req : request) : result Response :=
  match req with
  | updateFunctionCode p => Ok (mkResponse ("arn:code:" +:+ u_FunctionName p))
  | deleteFunction _ => Throw (mkError "AccessDeniedException" "not authorized")
  | _ => Throw (mkError "ServiceException" "Rate exceeded")
  end.

Definition world : World :=
  mkWorld Sample.diskV1 None Sample.notFound None
    (fun d => Sample.serialize d []) Sample.serialize
    1700 "/tmp" Sample.join provider.

End Outage.

Module More.

(** [fnA] with twice the memory. *)
Definition fnABigger : Instance :=
  mkInstance "id" (Some Sample.execRole) "fn-a" "a function" "index.handler"
    (CodeDir "./code") "nodejs8.10" 1024 30 ∅ ∅ "h1" None None.

(** [fnA] before [define] gave it a role. *)
Definition unassigned : Instance := set_role None Sample.fnA.

(** The inputs of [fnA] with a shim file beside the code directory. *)
Definition inputsShim : Inputs :=
  mkInputs "id" (Some Sample.execRole) "fn-a" "a function" "index.handler"
    (CodeList ["./code"; "shim.js"]) "nodejs8.10" 512 30 ∅ ∅.



(** The sample world without the code directory. *)
Definition worldNoCode : World := set_disk ∅ Sample.world.

Definition startA : St := mkSt Sample.fnA ∅.
Definition startDeployedA : St := mkSt Sample.deployedA ∅.

(** A framework that constructs the role it is asked for. *)
Definition constructRole (inputs : RoleInputs) : result Role :=
  Ok (mkRole (ri_roleName inputs) "arn:role:new").

End More.

Module CliSample.

(** A command that completes. *)
Definition completes : Cli.Handler := fun _ _ => Ok tt.

(** The commands of a module: [deploy] and [run]. *)
Definition commands : gmap string Cli.Handler :=
  <["deploy" := completes]> (<["run" := completes]> ∅).

(** Two of the properties that a plain object inherits: [toString], a
    function, and [__proto__], an object. *)
Definition objectPrototype : gmap string Cli.Property :=
  <["toString" := Cli.Function completes]> (<["__proto__" := Cli.Value true]> ∅).

Definition host : Cli.Host :=
  Cli.mkHost "/work" Sample.join None (fun _ => false) (fun _ env => env)
    false commands commands objectPrototype.

Definition noEnv : gmap string string := ∅.

(** The arguments of [components <cmd>]. *)
Definition named (cmd : string) : Cli.Args := Cli.mkArgs [Cli.PStr cmd] ∅.

(** What a run invoked and what it reported. *)
Definition invokedAndReported (args : Cli.Args) : list Cli.event :=
  List.filter (fun e => isInvoke e || isCliError e) (Cli.main host args noEnv).2.

End CliSample.

(** * Properties *)

(** ** The helpers *)

Lemma lookup_pick_not_elem (names : list string) (o : object) (k : string) :
  k ∉ names → Utils.pick names o !! k = None.
Proof.
  induction names as [|n names IH]; simpl; intros Hk.
  - apply lookup_empty.
  - apply not_elem_of_cons in Hk as [Hne Hk].
    destruct (o !! n); [rewrite lookup_insert_ne by done|]; auto.
Qed.

Lemma lookup_pick_elem (names : list string) (o : object) (k : string) :
  k ∈ names → Utils.pick names o !! k = o !! k.
Proof.
  induction names as [|n names IH]; simpl; intros Hk.
  - by apply elem_of_nil in Hk.
  - destruct (decide (k = n)) as [->|Hne].
    + destruct (o !! n) as [v|] eqn:Hn; [by rewrite lookup_insert_eq|].
      destruct (decide (n ∈ names)); [by rewrite IH|].
      by rewrite lookup_pick_not_elem.
    + apply elem_of_cons in Hk as [?|Hk]; [done|].
      destruct (o !! n); [rewrite lookup_insert_ne by done|]; auto.
Qed.

Lemma elem_of_keys (o : object) (k : string) :
  k ∈ Utils.keys o ↔ is_Some (o !! k).
Proof.
  unfold Utils.keys. rewrite list_elem_of_fmap. split.
  - intros [[k' v] [-> H]]. apply elem_of_map_to_list in H. by exists v.
  - intros [v H]. exists (k, v). split; [done|]. by apply elem_of_map_to_list.
Qed.

(** [includes] is the substring test. *)
Lemma append_String (a : Ascii.ascii) (s t : string) :
  String a s +:+ t = String a (s +:+ t).
Proof. reflexivity. Qed.

Lemma prefix_true (n h : string) :
  String.prefix n h = true ↔ ∃ post, h = n +:+ post.
Proof.
  revert h. induction n as [|a n IH]; intros h.
  - split; [intros _; by exists h | by destruct h].
  - destruct h as [|b h]; simpl.
    + split; [done | intros [post Hpost]; discriminate Hpost].
    + destruct (Ascii.ascii_dec a b) as [->|Hne].
      * rewrite IH. split; intros [post Hpost]; exists post;
          rewrite append_String in *; congruence.
      * split; [done | intros [post Hpost]].
        rewrite append_String in Hpost. congruence.
Qed.

Lemma includes_true (n h : string) :
  includes n h = true ↔ ∃ pre post, h = pre +:+ n +:+ post.
Proof.
  induction h as [|b h IH].
  - change (includes n "") with (String.prefix n "" || false).
    rewrite orb_false_r, prefix_true. split.
    + intros [post Hpost]. by exists "", post.
    + intros ([|c pre] & post & Hpost); [by exists post | discriminate Hpost].
  - change (includes n (String b h))
      with (String.prefix n (String b h) || includes n h).
    rewrite orb_true_iff, prefix_true, IH. split.
    + intros [[post Hpost]|(pre & post & Hpost)].
      * by exists "", post.
      * exists (String b pre), post. by rewrite append_String, Hpost.
    + intros ([|c pre] & post & Hpost).
      * left. by exists post.
      * right. exists pre, post. rewrite append_String in Hpost. congruence.
Qed.

(** ** The normalized configuration *)

Lemma currentConfig_names (this : Instance) (k : string) :
  is_Some (currentConfig this !! k) ↔ k ∈ configNames.
Proof.
  unfold currentConfig. rewrite <- elem_of_dom, dom_list_to_map_L.
  rewrite elem_of_list_to_set. reflexivity.
Qed.

(** On the names of the configuration, an instance seen as an object holds
    what its own normalized configuration holds. *)
Lemma toObject_config (p : Instance) (k : string) :
  k ∈ configNames → toObject p !! k = currentConfig p !! k.
Proof.
  intros Hk. unfold configNames in Hk.
  destruct p as [? [r|] ? ? ? ? ? ? ? ? ? ? [a|] [z|]];
    repeat (apply elem_of_cons in Hk as [->|Hk]; [reflexivity|]);
    by apply elem_of_nil in Hk.
Qed.

(** The projection of the previous instance is its own normalized
    configuration. *)
Lemma prevConfig_Some (this p : Instance) :
  prevConfig this (Some p) = currentConfig p.
Proof.
  apply map_eq; intros k. unfold prevConfig.
  destruct (decide (k ∈ configNames)) as [Hk|Hk].
  - rewrite lookup_pick_elem by (by rewrite elem_of_keys, currentConfig_names).
    by apply toObject_config.
  - rewrite lookup_pick_not_elem by (by rewrite elem_of_keys, currentConfig_names).
    symmetry. apply eq_None_not_Some. by rewrite currentConfig_names.
Qed.

Lemma codeValue_inj (c1 c2 : Code) : codeValue c1 = codeValue c2 → c1 = c2.
Proof. destruct c1, c2; simpl; congruence. Qed.

(** Two normalized configurations are equal exactly when the nine fields
    are. *)
Lemma currentConfig_eq (a b : Instance) :
  currentConfig a = currentConfig b ↔ sameConfiguration a b.
Proof.
  unfold sameConfiguration. split.
  - intros H.
    assert (L : ∀ k, prop (currentConfig a) k = prop (currentConfig b) k)
      by (by rewrite H).
    pose proof (L "functionName") as H1.
    pose proof (L "functionDescription") as H2.
    pose proof (L "handler") as H3. pose proof (L "code") as H4.
    pose proof (L "runtime") as H5. pose proof (L "memorySize") as H6.
    pose proof (L "timeout") as H7. pose proof (L "hash") as H8.
    pose proof (L "tags") as H9. clear L H.
    change (VStr (functionName a) = VStr (functionName b)) in H1.
    change (VStr (functionDescription a) = VStr (functionDescription b)) in H2.
    change (VStr (handler a) = VStr (handler b)) in H3.
    change (codeValue (code a) = codeValue (code b)) in H4.
    change (VStr (runtime a) = VStr (runtime b)) in H5.
    change (VNum (memorySize a) = VNum (memorySize b)) in H6.
    change (VNum (timeout a) = VNum (timeout b)) in H7.
    change (VStr (hash a) = VStr (hash b)) in H8.
    change (VObj (tags a) = VObj (tags b)) in H9.
    apply codeValue_inj in H4. by simplify_eq.
  - intros (H1 & H2 & H3 & H4 & H5 & H6 & H7 & H8 & H9).
    unfold currentConfig, Utils.resolve.
    by rewrite H1, H2, H3, H4, H5, H6, H7, H8, H9.
Qed.

Lemma configChanged_Some (this p : Instance) :
  configChanged this (Some p) = bool_decide (¬ sameConfiguration this p).
Proof.
  unfold configChanged, Utils.not, Utils.equals. rewrite prevConfig_Some.
  rewrite <- bool_decide_not. apply bool_decide_ext.
  by rewrite currentConfig_eq.
Qed.

(** Without a previous instance the configuration counts as changed. *)
Lemma configChanged_None (this : Instance) : configChanged this None = true.
Proof.
  unfold configChanged, Utils.not, Utils.equals, prevConfig.
  rewrite bool_decide_false; [done|]. intros H.
  assert (Hh : currentConfig this !! "hash" = Some (VStr (hash this)))
    by reflexivity.
  rewrite H in Hh. by rewrite lookup_empty in Hh.
Qed.

(** ** shouldDeploy *)

(** The decision when both instances carry a role: the three rules, in
    order. *)
Lemma shouldDeploy_Some (this p : Instance) (rc rp : Role) :
  role this = Some rc → role p = Some rp →
  shouldDeploy this (Some p) =
  Ok (if bool_decide (functionName p ≠ functionName this) then Some "replace"
      else if configChanged this (Some p) || bool_decide (roleName rc ≠ roleName rp)
           then Some "deploy" else None).
Proof.
  intros Hc Hp. unfold shouldDeploy, roleChanged, Utils.resolve.
  rewrite Hc, Hp. simpl.
  change (prop (currentConfig this) "functionName") with (VStr (functionName this)).
  rewrite (bool_decide_ext (VStr (functionName p) ≠ VStr (functionName this))
             (functionName p ≠ functionName this)) by (split; congruence).
  repeat case_bool_decide; try done; by destruct (_ || _).
Qed.

(** With both roles present, equal configurations and equal role names
    leave [shouldDeploy] without a decision to act. *)
Lemma shouldDeploy_unchanged (this p : Instance) :
  sameConfiguration this p → sameRoleName this p →
  shouldDeploy this (Some p) = Ok None.
Proof.
  intros Hcfg (rc & rp & Hc & Hp & Hname).
  rewrite (shouldDeploy_Some this p rc rp Hc Hp), configChanged_Some.
  rewrite (bool_decide_false (functionName p ≠ functionName this))
    by (destruct Hcfg as [-> _]; tauto).
  rewrite (bool_decide_false (¬ sameConfiguration this p)) by tauto.
  by rewrite (bool_decide_false (roleName rc ≠ roleName rp)) by tauto.
Qed.

(** [shouldDeploy] never reads the environment variables. *)
Lemma shouldDeploy_environment (this : Instance) (prev : option Instance)
    (e : gmap string string) :
  shouldDeploy (set_environment e this) prev = shouldDeploy this prev.
Proof. reflexivity. Qed.

(** Scenario: no previous instance, the decision is to deploy. *)
Lemma shouldDeploy_first_time (this : Instance) :
  shouldDeploy this None = Ok (Some "deploy").
Proof. reflexivity. Qed.

(** Claim C1 as written fails: a previous instance under another name that
    carries no role makes [shouldDeploy] fault on [prevInstance.role.roleName]
    before the names are compared, so it does not return ['replace']. *)
Lemma rename_without_prior_role_faults :
  ¬ (∀ this p : Instance,
       functionName p ≠ functionName this →
       shouldDeploy this (Some p) = Ok (Some "replace")).
Proof.
  intros H. specialize (H Sample.fnB Sample.roleless).
  assert (Hne : functionName Sample.roleless ≠ functionName Sample.fnB)
    by (by vm_compute).
  specialize (H Hne). vm_compute in H. discriminate H.
Qed.

(** Claim C1, as amended: when a previous instance exists, the current and
    the previous instance both carry an identity reference, and the previous
    function name differs from the current one, [shouldDeploy] returns
    ['replace'], whatever the other fields (configuration, identity) are. *)
Theorem rename_replaces (this p : Instance) (rc rp : Role) :
  role this = Some rc → role p = Some rp →
  functionName p ≠ functionName this →
  shouldDeploy this (Some p) = Ok (Some "replace") ∧
  decision (Some "replace") = Some Replace.
Proof.
  intros Hc Hp Hne. rewrite (shouldDeploy_Some this p rc rp Hc Hp).
  by rewrite bool_decide_true.
Qed.

(** The deployed fn-a, renamed fn-b, is replaced. *)
Lemma rename_replaces_witness :
  functionName Sample.deployedA ≠ functionName Sample.fnB ∧
  shouldDeploy Sample.fnB (Some Sample.deployedA) = Ok (Some "replace").
Proof.
  split; [by vm_compute|].
  apply (rename_replaces Sample.fnB Sample.deployedA Sample.execRole Sample.execRole);
    [reflexivity | reflexivity | by vm_compute].
Defined.

(** Claim C2: when a previous instance exists, every field of the normalized
    configuration (name, description, entry point, code location, runtime,
    memory limit, timeout, fingerprint, tags) is the same in both, and the
    identity reference has the same name in both, [shouldDeploy] returns
    nothing: the decision is NoOp. *)
Theorem unchanged_is_noop (this p : Instance) :
  sameConfiguration this p → sameRoleName this p →
  shouldDeploy this (Some p) = Ok None ∧ decision None = Some NoOp.
Proof. intros Hcfg Hrole. split; [by apply shouldDeploy_unchanged | done]. Qed.

(** The deployed fn-a, unchanged, is left alone. *)
Lemma unchanged_is_noop_witness :
  sameConfiguration Sample.fnA Sample.deployedA ∧
  sameRoleName Sample.fnA Sample.deployedA ∧
  shouldDeploy Sample.fnA (Some Sample.deployedA) = Ok None.
Proof.
  assert (Hcfg : sameConfiguration Sample.fnA Sample.deployedA)
    by (repeat split; reflexivity).
  assert (Hrole : sameRoleName Sample.fnA Sample.deployedA)
    by (exists Sample.execRole, Sample.execRole; repeat split; reflexivity).
  split; [exact Hcfg|]. split; [exact Hrole|].
  exact (proj1 (unchanged_is_noop Sample.fnA Sample.deployedA Hcfg Hrole)).
Defined.

(** Claim C3: when a previous instance exists and the current instance
    differs from it in the environment variables only (the normalized
    configuration and the name of the identity reference are the same),
    [shouldDeploy] returns neither ['deploy'] nor ['replace']. *)
Theorem environment_is_ignored (this p : Instance) :
  sameConfiguration this p → sameRoleName this p →
  environment this ≠ environment p →
  shouldDeploy this (Some p) = Ok None ∧
  shouldDeploy this (Some p) ≠ Ok (Some "deploy") ∧
  shouldDeploy this (Some p) ≠ Ok (Some "replace").
Proof.
  intros Hcfg Hrole _. rewrite (shouldDeploy_unchanged this p Hcfg Hrole).
  by split_and!.
Qed.

(** The deployed fn-a with one more environment variable is left alone. *)
Lemma environment_is_ignored_witness :
  environment Sample.fnAStaged ≠ environment Sample.deployedA ∧
  shouldDeploy Sample.fnAStaged (Some Sample.deployedA) = Ok None.
Proof.
  assert (Henv : environment Sample.fnAStaged ≠ environment Sample.deployedA).
  { intros H. apply (f_equal (fun m => m !! "STAGE")) in H. vm_compute in H.
    discriminate H. }
  split; [exact Henv|].
  refine (proj1 (environment_is_ignored Sample.fnAStaged Sample.deployedA _ _ Henv)).
  - repeat split; reflexivity.
  - exists Sample.execRole, Sample.execRole; repeat split; reflexivity.
Defined.



(** Claim C10: a previous instance that carries no role makes
    [shouldDeploy] fault on the unguarded [prevInstance.role.roleName]: it
    throws a TypeError and returns no decision.  So [shouldDeploy] returns
    only if every previous instance it is given carries a role. *)
Theorem shouldDeploy_needs_prior_role (this p : Instance) :
  role p = None →
  shouldDeploy this (Some p) = Throw (typeError "roleName") ∧
  ∀ d, shouldDeploy this (Some p) ≠ Ok d.
Proof.
  intros Hp.
  assert (H : shouldDeploy this (Some p) = Throw (typeError "roleName")).
  { unfold shouldDeploy, roleChanged, Utils.resolve. rewrite Hp.
    by destruct (role this). }
  rewrite H. by split.
Qed.

(** The saved fn-a that has lost its role makes the decision fault. *)
Lemma shouldDeploy_needs_prior_role_witness :
  role Sample.roleless = None ∧
  shouldDeploy Sample.fnA (Some Sample.roleless) = Throw (typeError "roleName").
Proof.
  split; [reflexivity|].
  exact (proj1 (shouldDeploy_needs_prior_role Sample.fnA Sample.roleless eq_refl)).
Defined.

(** With a role on both sides, or without a previous instance,
    [shouldDeploy] returns. *)
Lemma shouldDeploy_returns (this : Instance) (prev : option Instance) :
  (∀ p, prev = Some p → is_Some (role this) ∧ is_Some (role p)) →
  ∃ d, shouldDeploy this prev = Ok d.
Proof.
  destruct prev as [p|]; intros H.
  - destruct (H p eq_refl) as [[rc Hc] [rp Hp]].
    rewrite (shouldDeploy_Some this p rc rp Hc Hp). eauto.
  - by exists (Some "deploy").
Qed.

(** ** Running the methods *)

(** Unfolds the monad under a method body. *)
Ltac run :=
  repeat (unfold mbind, M_bind, mret, M_ret, getThis, log, emit, lift, call,
            modifyThis, throw, tryCatch; simpl).

(** Looks for a provider call in an explicit list of events. *)
Ltac find_call H :=
  repeat (apply elem_of_cons in H as [H|H]; [try discriminate H|]);
  try (by apply elem_of_nil in H).

Section Runs.

Variable w : World.

(** A throw ends the sequence it occurs in. *)
Lemma bind_throw {A B : Type} (m : M A) (f : A → M B) (st : St) (e : Error) :
  outcome (m st) = Throw e →
  (m ≫= f) st = (Throw e, final (m st), events (m st)).
Proof.
  unfold outcome, final, events, mbind, M_bind.
  destruct (m st) as [[[a|e'] st1] ev1]; simpl; congruence.
Qed.

(** *** construct and hydrate *)

Lemma construct_ok (inputs : Inputs) (p : string) (d : Listing) :
  codeFolder (in_code inputs) = Some p → disk w !! p = Some d →
  ∃ inst, construct w inputs = Ok inst ∧
          hash inst = digest w (visible ["node_modules"] d) ∧
          code inst = in_code inputs ∧ arn inst = None.
Proof.
  intros Hp Hd. unfold construct, hashElement, Utils.resolve, folderListing.
  rewrite Hp, Hd. simpl. eauto.
Qed.

(** *** pack *)

(** Packaging a folder that is found. *)
Lemma pack_ok (st : St) (d : Listing) :
  let folder := codeFolder (code (this st)) in
  folderListing w folder = Some d →
  let out := outputFilePath w (this st) in
  let shims := codeShims (code (this st)) in
  let buf := archiver w (visible dependencyCaches d) shims in
  pack w st =
    (Ok buf,
     mkSt (set_zip (Some buf) (this st)) (<[out := buf]> (tmpfiles st)),
     [PackDir folder out shims; ReadFileSync out]).
Proof.
  intros folder Hd. unfold pack, packDir, readFileSync. run.
  fold folder. rewrite Hd. simpl. rewrite lookup_insert_eq. reflexivity.
Qed.

Lemma pack_outcome (st : St) (buf : Buffer) :
  outcome (pack w st) = Ok buf →
  ∃ d, folderListing w (codeFolder (code (this st))) = Some d.
Proof.
  unfold pack, packDir, outcome. run.
  destruct (folderListing w (codeFolder (code (this st)))) as [d|] eqn:Hd;
    [|simpl; discriminate].
  intros _. by exists d.
Qed.

Lemma pack_no_calls (st : St) : calls (events (pack w st)) = [].
Proof.
  unfold pack, packDir, readFileSync, events. run.
  destruct (folderListing w (codeFolder (code (this st)))) as [d|]; run; [|done].
  by destruct (_ !! _).
Qed.

(** *** deploy *)

(** A deploy whose packaging succeeded and whose instance carries a role:
    the whole run, on either branch. *)
Lemma deploy_after_pack (prev : option Instance) (st : St)
    (d : Listing) (r : Role) :
  let folder := codeFolder (code (this st)) in
  folderListing w folder = Some d →
  role (this st) = Some r →
  let out := outputFilePath w (this st) in
  let shims := codeShims (code (this st)) in
  let buf := archiver w (visible dependencyCaches d) shims in
  let self := set_zip (Some buf) (this st) in
  let files := <[out := buf]> (tmpfiles st) in
  let packed := [PackDir folder out shims; ReadFileSync out] in
  deploy w prev st =
    if createBranch (this st) prev then
      let req := createFunction (createParams self r) in
      let evs := packed ++ [Log ("Creating Lambda: " +:+ functionName self);
                            Call req (lambda w req)] in
      match lambda w req with
      | Ok res => (Ok tt, mkSt (set_arn (Some (FunctionArn res)) self) files, evs)
      | Throw e => (Throw e, mkSt self files, evs)
      end
    else
      let req1 := updateFunctionCode (functionCodeParams self) in
      let req2 := updateFunctionConfiguration (functionConfigParams self r) in
      let evs1 := packed ++ [Log ("Updating Lambda: " +:+ functionName self);
                             Call req1 (lambda w req1)] in
      match lambda w req1 with
      | Ok _ =>
          match lambda w req2 with
          | Ok res =>
              (Ok tt, mkSt (set_arn (Some (FunctionArn res)) self) files,
               evs1 ++ [Call req2 (lambda w req2)])
          | Throw e =>
              (Throw e, mkSt self files, evs1 ++ [Call req2 (lambda w req2)])
          end
      | Throw e => (Throw e, mkSt self files, evs1)
      end.
Proof.
  intros folder Hd Hr. unfold deploy. unfold mbind at 1. unfold M_bind at 1.
  rewrite (pack_ok st d Hd). run.
  change (createBranch (set_zip _ (this st)) prev)
    with (createBranch (this st) prev).
  destruct (createBranch (this st) prev); unfold createLambda, updateLambda;
    run; rewrite Hr; run.
  - by destruct (lambda w (createFunction _)).
  - destruct (lambda w (updateFunctionCode _)); run; [|done].
    by destruct (lambda w (updateFunctionConfiguration _)).
Qed.

(** A deploy whose packaging fails stops there: no provider call. *)
Lemma deploy_pack_fails (prev : option Instance) (st : St) (e : Error) :
  outcome (pack w st) = Throw e →
  outcome (deploy w prev st) = Throw e ∧
  calls (events (deploy w prev st)) = [].
Proof.
  intros Hpack. unfold deploy. rewrite (bind_throw _ _ _ _ Hpack).
  split; [done|]. apply pack_no_calls.
Qed.

(** A deploy of an instance without a role faults on [role.arn] while the
    parameters are built: no provider call. *)
Lemma deploy_no_role (prev : option Instance) (st : St) (d : Listing) :
  let folder := codeFolder (code (this st)) in
  folderListing w folder = Some d →
  role (this st) = None →
  let out := outputFilePath w (this st) in
  let shims := codeShims (code (this st)) in
  let buf := archiver w (visible dependencyCaches d) shims in
  deploy w prev st =
    (Throw (typeError "arn"),
     mkSt (set_zip (Some buf) (this st)) (<[out := buf]> (tmpfiles st)),
     [PackDir folder out shims; ReadFileSync out;
      Log ((if createBranch (this st) prev then "Creating" else "Updating")
           +:+ " Lambda: " +:+ functionName (this st))]).
Proof.
  intros folder Hd Hr. unfold deploy. unfold mbind at 1. unfold M_bind at 1.
  rewrite (pack_ok st d Hd). run.
  change (createBranch (set_zip _ (this st)) prev)
    with (createBranch (this st) prev).
  destruct (createBranch (this st) prev); unfold createLambda, updateLambda;
    run; rewrite Hr; by run.
Qed.

(** Claim C5, as amended: for every invocation of deploy whose packaging
    step succeeds and whose instance carries an identity reference: if no
    previous instance exists or the current name differs from the previous
    one, exactly one create call is issued and no update call; otherwise no
    create call is issued, the code update (updateFunctionCode) is issued
    first and the configuration update (updateFunctionConfiguration) follows
    it once it has succeeded, both against the current function name. *)
Theorem deploy_calls (prev : option Instance) (st : St) (buf : Buffer) (r : Role) :
  outcome (pack w st) = Ok buf → role (this st) = Some r →
  let self := set_zip (Some buf) (this st) in
  let code := updateFunctionCode (functionCodeParams self) in
  let config := updateFunctionConfiguration (functionConfigParams self r) in
  (calls (events (deploy w prev st)) =
     if createBranch (this st) prev then [createFunction (createParams self r)]
     else code :: (if lambda w code is Ok _ then [config] else [])) ∧
  u_FunctionName (functionCodeParams self) = functionName (this st) ∧
  g_FunctionName (functionConfigParams self r) = functionName (this st).
Proof.
  intros Hpack Hr. destruct (pack_outcome st buf Hpack) as (d & Hd).
  assert (buf = archiver w (visible dependencyCaches d)
                  (codeShims (code (this st)))) as ->.
  { rewrite (pack_ok st d Hd) in Hpack. by injection Hpack. }
  simpl. split; [|done].
  rewrite (deploy_after_pack prev st d r Hd Hr).
  destruct (createBranch (this st) prev); simpl.
  - by destruct (lambda w (createFunction _)).
  - destruct (lambda w (updateFunctionCode _)); [|done].
    by destruct (lambda w (updateFunctionConfiguration _)).
Qed.

(** Claim C6, as amended: deploy returns no value; in every invocation of
    deploy in which the create call (on the create branch) or the
    configuration-update call (on the update branch) succeeds, deploy
    completes and the identifier it leaves in [this.arn], the one [getId]
    returns, is the one that call answered. *)
Theorem deploy_identifier (prev : option Instance) (st : St)
    (req : request) (res : Response) :
  Call req (Ok res) ∈ events (deploy w prev st) →
  isCreate req || isConfigurationUpdate req = true →
  outcome (deploy w prev st) = Ok tt ∧
  getId (this (final (deploy w prev st))) = Some (FunctionArn res) ∧
  isCreate req = createBranch (this st) prev.
Proof.
  intros Hin Hkind.
  assert (Hcalls : req ∈ calls (events (deploy w prev st))).
  { unfold calls. apply list_elem_of_omap. by exists (Call req (Ok res)). }
  destruct (outcome (pack w st)) as [buf|e] eqn:Hpack.
  2:{ destruct (deploy_pack_fails prev st e Hpack) as [_ Hnil].
      rewrite Hnil in Hcalls. by apply elem_of_nil in Hcalls. }
  destruct (pack_outcome st buf Hpack) as (d & Hd).
  destruct (role (this st)) as [r|] eqn:Hr.
  2:{ rewrite (deploy_no_role prev st d Hd Hr) in Hcalls.
      by apply elem_of_nil in Hcalls. }
  clear Hcalls.
  rewrite (deploy_after_pack prev st d r Hd Hr) in *.
  destruct (createBranch (this st) prev); simpl in *.
  - destruct (lambda w (createFunction _)) as [res'|e] eqn:Hcall; simpl in *;
      find_call Hin; injection Hin as -> Hres; by simplify_eq.
  - destruct (lambda w (updateFunctionCode _)) as [res1|e1] eqn:Hcall1;
      simpl in *;
      [destruct (lambda w (updateFunctionConfiguration _)) as [res2|e2] eqn:Hcall2;
       simpl in *|];
      find_call Hin; injection Hin as -> Hres; by simplify_eq.
Qed.

(** *** remove *)

(** Claim C7: remove completes without an error exactly when the delete
    call succeeds or fails with an error whose message contains
    'Function not found'; any other failure of the delete call is wrapped
    in a new Error and thrown. *)
Theorem remove_outcome (st : St) :
  let req := deleteFunction {| d_FunctionName := functionName (this st) |} in
  (outcome (remove w st) = Ok tt ↔
     (∃ res, lambda w req = Ok res) ∨
     (∃ e, lambda w req = Throw e ∧
           includes "Function not found" (message e) = true)) ∧
  (∀ e, lambda w req = Throw e →
        includes "Function not found" (message e) = false →
        outcome (remove w st) = Throw (newError (toString e))) ∧
  calls (events (remove w st)) = [req].
Proof.
  unfold remove, deleteLambda, outcome, events. run.
  destruct (lambda w (deleteFunction _)) as [res|e] eqn:Hcall; run.
  - split_and!; [|done|done]. split; [eauto|done].
  - destruct (includes "Function not found" (message e)) eqn:Hinc; run.
    + split_and!; [|intros e' [= <-]; congruence|done].
      split; [intros _; right; eauto|done].
    + split_and!; [|by intros e' [= <-] _|done].
      split; [done|]. intros [[res [=]]|[e' [[= <-] He']]]. congruence.
Qed.

(** *** The fingerprint *)

(** Claim C8: the fingerprint that every comparison uses is the one
    [construct] computes from the current code location; [hydrate] takes
    the remote identifier from the previous instance and nothing else, so
    the fingerprint of the previous instance is never taken over. *)
Theorem fingerprint_is_recomputed (inputs : Inputs) (prev : option Instance)
    (p : string) (d : Listing) :
  codeFolder (in_code inputs) = Some p → disk w !! p = Some d →
  ∃ inst,
    construct w inputs = Ok inst ∧
    hash inst = digest w (visible ["node_modules"] d) ∧
    hash (hydrate prev inst) = hash inst ∧
    prop (currentConfig (hydrate prev inst)) "hash" = VStr (hash inst) ∧
    getId (hydrate prev inst) = prev ≫= arn ∧
    set_arn (arn inst) (hydrate prev inst) = inst.
Proof.
  intros Hp Hd. destruct (construct_ok inputs p d Hp Hd) as (inst & Hc & Hh & _).
  exists inst. split_and!; try done. by destruct inst.
Qed.

End Runs.

(** *** node_modules *)

(** The fingerprint is blind to what lies under node_modules. *)
Lemma fingerprint_excludes_node_modules : fingerprintExcludes ["node_modules"].
Proof.
  intros w dk1 dk2 inputs p d1 d2 Hp H1 H2 Hvis.
  unfold construct, hashElement, Utils.resolve, folderListing. rewrite Hp.
  simpl. by rewrite H1, H2, Hvis.
Qed.

(** The archive is blind to the dependency-cache directories. *)
Lemma archive_excludes_dependency_caches : archiveExcludes dependencyCaches.
Proof.
  intros w dk1 dk2 st p d1 d2 Hp H1 H2 Hvis.
  assert (Hf : ∀ dk d, dk !! p = Some d →
            folderListing (set_disk dk w) (codeFolder (code (this st))) = Some d).
  { intros dk d Hd. by rewrite Hp. }
  rewrite (pack_ok (set_disk dk1 w) st d1 (Hf dk1 d1 H1)).
  rewrite (pack_ok (set_disk dk2 w) st d2 (Hf dk2 d2 H2)).
  unfold outcome. simpl. by rewrite Hvis.
Qed.

(** Claim C9: for every code location, what lies under a node_modules
    folder is left out both of the fingerprint and of the archive: two
    states of the code directory that differ there only get the same
    instance from [construct], fingerprint included, and the same bytes from
    [pack].  [construct] names the directory to the hashing itself; the
    packaging leaves it out on its own, [pack] handing it the directory, the
    output path and the shims. *)
Theorem node_modules_is_left_out (w : World)
    (dk1 dk2 : gmap string Listing) (inputs : Inputs) (st : St)
    (p : string) (d1 d2 : Listing) :
  codeFolder (in_code inputs) = Some p → code (this st) = in_code inputs →
  dk1 !! p = Some d1 → dk2 !! p = Some d2 →
  visible ["node_modules"] d1 = visible ["node_modules"] d2 →
  (∃ inst, construct (set_disk dk1 w) inputs = Ok inst ∧
           construct (set_disk dk2 w) inputs = Ok inst ∧
           hash inst = digest w (visible ["node_modules"] d1)) ∧
  (∃ buf, outcome (pack (set_disk dk1 w) st) = Ok buf ∧
          outcome (pack (set_disk dk2 w) st) = Ok buf ∧
          buf = archiver w (visible ["node_modules"] d1)
                  (codeShims (in_code inputs))).
Proof.
  intros Hp Hcode H1 H2 Hvis. split_and!.
  - destruct (construct_ok (set_disk dk1 w) inputs p d1 Hp H1) as (inst & Hc & Hh & _).
    exists inst. split_and!; [done| |done].
    by rewrite <- (fingerprint_excludes_node_modules w dk1 dk2 inputs p d1 d2).
  - rewrite <- Hcode in *.
    assert (Hf : ∀ dk d, dk !! p = Some d →
              folderListing (set_disk dk w) (codeFolder (code (this st))) = Some d).
    { intros dk d Hd. by rewrite Hp. }
    eexists. split_and!; [| |reflexivity].
    + by rewrite (pack_ok (set_disk dk1 w) st d1 (Hf dk1 d1 H1)).
    + rewrite <- (archive_excludes_dependency_caches w dk1 dk2 st p d1 d2)
        by done.
      by rewrite (pack_ok (set_disk dk1 w) st d1 (Hf dk1 d1 H1)).
Qed.

(** ** The claims on the sample data *)

(** Claim C5 as written fails: a deploy whose code directory is missing
    stops in [pack], before any provider call, although no previous
    instance exists: the create call is not issued. *)
Lemma deploy_without_code_directory : ¬ deployAlwaysCalls.
Proof.
  intros H.
  specialize (H (set_disk ∅ Sample.world) None (mkSt Sample.fnA ∅)).
  vm_compute in H. destruct H as [p H]. discriminate H.
Qed.

(** The deployed fn-a, deployed again under its name: the code update, then
    the configuration update, against fn-a. *)
Lemma deploy_calls_witness :
  outcome (pack Sample.world (mkSt Sample.fnA ∅))
    = Ok "index.js=exports.handler|" ∧
  updateSequence "fn-a"
    (calls (events (deploy Sample.world (Some Sample.deployedA)
                      (mkSt Sample.fnA ∅)))).
Proof.
  assert (Hpack : outcome (pack Sample.world (mkSt Sample.fnA ∅))
                  = Ok "index.js=exports.handler|")
    by (vm_compute; reflexivity).
  split; [exact Hpack|].
  destruct (deploy_calls Sample.world (Some Sample.deployedA)
              (mkSt Sample.fnA ∅) _ Sample.execRole Hpack eq_refl)
    as (Hcalls & Hcode & Hconfig).
  rewrite Hcalls. simpl. eexists _, _. split; [reflexivity|]. by split.
Defined.

(** Claim C6 as written fails: on the update branch, with a provider that
    takes the code and rejects the configuration, a provider call has
    succeeded and deploy throws: it hands over no identifier, and
    [this.arn] is still the one of the previous deployment. *)
Lemma code_update_alone_delivers_nothing : ¬ deployDeliversIdentifier.
Proof.
  intros H.
  destruct (H Outage.world (Some Sample.deployedA) More.startDeployedA
              (updateFunctionCode
                 (functionCodeParams
                    (set_zip (Some "index.js=exports.handler|") Sample.deployedA)))
              (mkResponse "arn:code:fn-a"))
    as (req' & res' & _ & _ & Hout & _).
  - apply list_elem_of_In. vm_compute. auto 10.
  - vm_compute in Hout. discriminate Hout.
Qed.

(** A first deploy of fn-a leaves the identifier that the create call
    answered. *)
Lemma deploy_identifier_witness :
  getId (this (final (deploy Sample.world None (mkSt Sample.fnA ∅))))
    = Some "arn:created:fn-a".
Proof.
  refine (proj1 (proj2
    (deploy_identifier Sample.world None (mkSt Sample.fnA ∅)
       (createFunction
          (createParams
             (set_zip (Some "index.js=exports.handler|") Sample.fnA)
             Sample.execRole))
       (mkResponse "arn:created:fn-a") _ _))).
  - apply list_elem_of_In. vm_compute. auto 10.
  - reflexivity.
Defined.

(** The fingerprint of fn-a is the digest of its code directory without
    node_modules, whatever fingerprint the saved instance holds; the
    identifier is the saved one. *)
Lemma fingerprint_is_recomputed_witness :
  ∃ inst,
    construct Sample.world Sample.inputsA = Ok inst ∧
    hash (hydrate (Some Sample.deployedA) inst) = "index.js=exports.handler|" ∧
    getId (hydrate (Some Sample.deployedA) inst) = Some "id-1".
Proof.
  destruct (fingerprint_is_recomputed Sample.world Sample.inputsA
              (Some Sample.deployedA) "./code" Sample.codeV1 eq_refl eq_refl)
    as (inst & Hc & Hh & Hh' & _ & Hid & _).
  exists inst. split; [exact Hc|]. split; [|exact Hid].
  rewrite Hh', Hh. vm_compute. reflexivity.
Defined.

(** Two states of the code directory that differ under node_modules: one
    fingerprint, one archive. *)
Lemma node_modules_is_left_out_witness :
  Sample.codeV1 ≠ Sample.codeV2 ∧
  construct (set_disk Sample.diskV1 Sample.world) Sample.inputsA
  = construct (set_disk Sample.diskV2 Sample.world) Sample.inputsA ∧
  outcome (pack (set_disk Sample.diskV1 Sample.world) (mkSt Sample.fnA ∅))
  = outcome (pack (set_disk Sample.diskV2 Sample.world) (mkSt Sample.fnA ∅)).
Proof.
  split; [discriminate|].
  destruct (node_modules_is_left_out Sample.world
              Sample.diskV1 Sample.diskV2
              Sample.inputsA (mkSt Sample.fnA ∅) "./code"
              Sample.codeV1 Sample.codeV2
              eq_refl eq_refl eq_refl eq_refl eq_refl)
    as [(inst & H1 & H2 & _) (buf & H3 & H4 & _)].
  split; [rewrite H1, H2|rewrite H3, H4]; reflexivity.
Defined.

(** Scenario: memory raised from 512 to 1024 on a deployed function: the
    decision is to deploy, and the deploy is an update. *)
Example memory_change_deploys :
  let bigger := mkInstance "id" (Some Sample.execRole) "fn-a" "a function"
                  "index.handler" (CodeDir "./code") "nodejs8.10" 1024 30 ∅ ∅
                  "h1" None None in
  shouldDeploy bigger (Some Sample.deployedA) = Ok (Some "deploy") ∧
  createBranch bigger (Some Sample.deployedA) = false.
Proof. by vm_compute. Qed.

(** Scenario: the provider reports the function as not found: remove
    completes. *)
Example remove_not_found :
  outcome (remove Sample.world (mkSt Sample.fnA ∅)) = Ok tt.
Proof. by vm_compute. Qed.

(** * Further properties *)

(** ** The decision *)

(** Property X1: with a role on both sides, [shouldDeploy] returns
    ['replace'] exactly when the names differ, ['deploy'] exactly when the
    names are the same and a field of the normalized configuration or the
    name of the role differs, and nothing exactly when the configuration and
    the name of the role are the same. *)
Theorem shouldDeploy_decision_table (this p : Instance) (rc rp : Role) :
  role this = Some rc → role p = Some rp →
  (shouldDeploy this (Some p) = Ok (Some "replace") ↔
     functionName p ≠ functionName this) ∧
  (shouldDeploy this (Some p) = Ok (Some "deploy") ↔
     functionName p = functionName this ∧
     (¬ sameConfiguration this p ∨ roleName rc ≠ roleName rp)) ∧
  (shouldDeploy this (Some p) = Ok None ↔
     sameConfiguration this p ∧ roleName rc = roleName rp).
Proof.
  intros Hc Hp. rewrite (shouldDeploy_Some this p rc rp Hc Hp), configChanged_Some.
  destruct (decide (functionName p = functionName this)) as [Hn|Hn].
  - rewrite (bool_decide_false (functionName p ≠ functionName this)) by tauto.
    destruct (decide (sameConfiguration this p)) as [Hs|Hs].
    + rewrite (bool_decide_false (¬ sameConfiguration this p)) by tauto.
      destruct (decide (roleName rc = roleName rp)) as [Hr|Hr].
      * rewrite (bool_decide_false (roleName rc ≠ roleName rp)) by tauto.
        simpl. split_and!; split; try done; try tauto.
      * rewrite (bool_decide_true (roleName rc ≠ roleName rp)) by done.
        simpl. split_and!; split; try done; try tauto.
    + rewrite (bool_decide_true (¬ sameConfiguration this p)) by done.
      simpl. split_and!; split; try done; try tauto.
  - rewrite (bool_decide_true (functionName p ≠ functionName this)) by done.
    split_and!; split; try done; try tauto.
    intros [Hs _]. destruct Hs as [Hs _]. congruence.
Qed.

(** More memory for the deployed fn-a: deploy. *)
Lemma shouldDeploy_decision_table_witness :
  shouldDeploy More.fnABigger (Some Sample.deployedA) = Ok (Some "deploy").
Proof.
  apply (proj2 (proj1 (proj2 (shouldDeploy_decision_table More.fnABigger
           Sample.deployedA Sample.execRole Sample.execRole eq_refl eq_refl)))).
  split; [reflexivity|]. left. intros (_ & _ & _ & _ & _ & H & _).
  vm_compute in H. discriminate H.
Defined.

(** Property X2: an instance without a role gets ['deploy'] when there is no
    previous instance, and makes [shouldDeploy] fault on
    [resolve(this.role).roleName] as soon as there is one, whatever the
    previous instance holds. *)
Theorem shouldDeploy_without_current_role (this : Instance) :
  role this = None →
  shouldDeploy this None = Ok (Some "deploy") ∧
  ∀ p, shouldDeploy this (Some p) = Throw (typeError "roleName").
Proof.
  intros Hr. split; [reflexivity|]. intros p.
  unfold shouldDeploy, roleChanged, Utils.resolve. by rewrite Hr.
Qed.

(** fn-a without a role, against its deployed self. *)
Lemma shouldDeploy_without_current_role_witness :
  role More.unassigned = None ∧
  shouldDeploy More.unassigned (Some Sample.deployedA)
    = Throw (typeError "roleName").
Proof.
  split; [reflexivity|].
  exact (proj2 (shouldDeploy_without_current_role More.unassigned eq_refl)
           Sample.deployedA).
Defined.

Lemma shouldDeploy_Ok_roles (this p : Instance) (d : option string) :
  shouldDeploy this (Some p) = Ok d →
  ∃ rc rp, role this = Some rc ∧ role p = Some rp.
Proof.
  unfold shouldDeploy, roleChanged, Utils.resolve.
  destruct (role this) as [rc|]; [|discriminate].
  destruct (role p) as [rp|]; [|discriminate]. eauto.
Qed.

(** Property X3: [deploy] and [shouldDeploy] agree on the names: whenever
    [shouldDeploy] returns, [deploy] takes its create branch exactly when
    the decision is ['replace'] or there is no previous instance; a
    ['deploy'] decided against a previous instance is an update. *)
Theorem decision_matches_branch (this : Instance) (prev : option Instance)
    (d : option string) :
  shouldDeploy this prev = Ok d →
  (createBranch this prev = true ↔ d = Some "replace" ∨ prev = None).
Proof.
  destruct prev as [p|]; simpl.
  - intros H. destruct (shouldDeploy_Ok_roles this p d H) as (rc & rp & Hc & Hp).
    rewrite (shouldDeploy_Some this p rc rp Hc Hp) in H.
    rewrite bool_decide_eq_true.
    destruct (decide (functionName p = functionName this)) as [Hn|Hn].
    + rewrite (bool_decide_false (functionName p ≠ functionName this)) in H by tauto.
      split; [congruence|]. intros [->|[=]]. by destruct (_ || _).
    + rewrite (bool_decide_true (functionName p ≠ functionName this)) in H by done.
      split; [|congruence]. intros _. left. congruence.
  - intros _. split; auto.
Qed.

(** The deployed fn-a renamed fn-b: the decision is to replace, and deploy
    creates. *)
Lemma decision_matches_branch_witness :
  createBranch Sample.fnB (Some Sample.deployedA) = true.
Proof.
  apply (proj2 (decision_matches_branch Sample.fnB (Some Sample.deployedA)
                  (Some "replace") ltac:(vm_compute; reflexivity))).
  left. reflexivity.
Defined.

(** Property X4: the decision depends on the nine fields of the normalized
    configuration and on the names of the two roles, and on nothing else:
    the identifier, the archive, the instance identifier, the environment
    and the identifiers of the roles play no part. *)
Theorem shouldDeploy_reads_only (a a' p p' : Instance) :
  sameConfiguration a a' → sameRoleName a a' →
  sameConfiguration p p' → sameRoleName p p' →
  shouldDeploy a (Some p) = shouldDeploy a' (Some p').
Proof.
  intros Ha (ra & ra' & Hra & Hra' & Hna) Hp (rp & rp' & Hrp & Hrp' & Hnp).
  rewrite (shouldDeploy_Some a p ra rp Hra Hrp).
  rewrite (shouldDeploy_Some a' p' ra' rp' Hra' Hrp').
  rewrite !configChanged_Some.
  apply currentConfig_eq in Ha, Hp.
  assert (Hn : functionName p ≠ functionName a ↔ functionName p' ≠ functionName a').
  { apply currentConfig_eq in Ha as [-> _], Hp as [-> _]. done. }
  assert (Hs : sameConfiguration a p ↔ sameConfiguration a' p').
  { rewrite <- !currentConfig_eq. by rewrite Ha, Hp. }
  rewrite (bool_decide_ext _ _ Hn).
  rewrite (bool_decide_ext (¬ sameConfiguration a p) (¬ sameConfiguration a' p'))
    by (by rewrite Hs).
  by rewrite Hna, Hnp.
Qed.

(** A recreated role, one more environment variable, a saved identifier:
    the same decision. *)
Lemma shouldDeploy_reads_only_witness :
  shouldDeploy Sample.fnARecreated (Some Sample.deployedA)
  = shouldDeploy Sample.fnAStaged (Some Sample.fnA).
Proof.
  apply (shouldDeploy_reads_only Sample.fnARecreated Sample.fnAStaged
           Sample.deployedA Sample.fnA).
  - repeat split; reflexivity.
  - exists Sample.recreatedRole, Sample.execRole. repeat split; reflexivity.
  - repeat split; reflexivity.
  - exists Sample.execRole, Sample.execRole. repeat split; reflexivity.
Defined.

(** ** define *)

Section DefineFacts.

Variables f g : RoleInputs → result Role.

(** Property X5: when [define] completes, the role it returns is the role
    of the instance, no other field has changed, and a second [define]
    returns the same role without asking the framework for anything; an
    instance that had no role got the one constructed under the name of the
    function followed by [-execution-role], for lambda.amazonaws.com. *)
Theorem define_settles_role (this this' : Instance) (r : Role) :
  define f this = Ok (r, this') →
  role this' = Some r ∧
  set_role (role this) this' = this ∧
  define g this' = Ok (r, this') ∧
  (role this = None →
   f {| ri_roleName := functionName this +:+ "-execution-role";
        ri_service := "lambda.amazonaws.com" |} = Ok r).
Proof.
  unfold define, Utils.resolve. destruct (role this) as [r0|] eqn:Hr.
  - intros [= <- <-]. rewrite Hr. split_and!; try done.
    rewrite <- Hr. by destruct this.
  - destruct (f _) as [r1|e] eqn:Hf; [|discriminate]. simpl.
    intros [= <- <-]. simpl. split_and!; try done.
    rewrite <- Hr. by destruct this.
Qed.

(** Property X6: after a [define] that completes, the missing role of the
    current instance no longer makes anything fault: [shouldDeploy] returns
    against every previous instance that carries a role, and a [deploy]
    whose packaging succeeds reaches the provider. *)
Theorem define_then_reconcile (this this' : Instance) (r : Role) :
  define f this = Ok (r, this') →
  (∀ p, is_Some (role p) → ∃ d, shouldDeploy this' (Some p) = Ok d) ∧
  (∀ w prev files buf,
     outcome (pack w (mkSt this' files)) = Ok buf →
     calls (events (deploy w prev (mkSt this' files))) ≠ []).
Proof.
  intros Hdef.
  assert (Hr : role this' = Some r).
  { revert Hdef. unfold define, Utils.resolve.
    destruct (role this) as [r0|] eqn:Hr0.
    - by intros [= <- <-].
    - destruct (f _); [|discriminate]. by intros [= <- <-]. }
  split.
  - intros p [rp Hp]. rewrite (shouldDeploy_Some this' p r rp Hr Hp). eauto.
  - intros w prev files buf Hpack.
    destruct (pack_outcome w _ buf Hpack) as (d & Hd).
    rewrite (deploy_after_pack w prev _ d r Hd Hr).
    destruct (createBranch _ prev); simpl.
    + by destruct (lambda w (createFunction _)).
    + destruct (lambda w (updateFunctionCode _)); [|done].
      by destruct (lambda w (updateFunctionConfiguration _)).
Qed.

End DefineFacts.

(** fn-a without a role is given fn-a-execution-role. *)
Lemma define_settles_role_witness :
  ∃ this',
    define More.constructRole More.unassigned
      = Ok (mkRole "fn-a-execution-role" "arn:role:new", this') ∧
    role this' = Some (mkRole "fn-a-execution-role" "arn:role:new").
Proof.
  eexists. split; [reflexivity|].
  exact (proj1 (define_settles_role More.constructRole More.constructRole
                  More.unassigned _ _ eq_refl)).
Defined.

(** fn-a, once defined, is decided against its deployed self. *)
Lemma define_then_reconcile_witness :
  ∃ d, shouldDeploy
         (set_role (Some (mkRole "fn-a-execution-role" "arn:role:new"))
            More.unassigned)
         (Some Sample.deployedA) = Ok d.
Proof.
  apply (proj1 (define_then_reconcile More.constructRole More.unassigned
                  _ _ eq_refl) Sample.deployedA).
  by exists Sample.execRole.
Defined.

(** ** construct, pack and deploy *)


Section MoreRuns.

Variable w : World.

(** Packaging a folder that is not found: the error is the world's, and so
    is what the output file holds afterwards. *)
Lemma pack_fails (st : St) :
  let folder := codeFolder (code (this st)) in
  let out := outputFilePath w (this st) in
  folderListing w folder = None →
  pack w st =
    (Throw (ioError w folder),
     mkSt (this st)
       (match leftover w with
        | Some b => <[out := b]> (tmpfiles st)
        | None => tmpfiles st
        end),
     [PackDir folder out (codeShims (code (this st)))]).
Proof.
  intros folder out Hd. unfold pack, packDir. run. fold folder. by rewrite Hd.
Qed.

Lemma pack_fails_state (st : St) (e : Error) :
  outcome (pack w st) = Throw e →
  this (final (pack w st)) = this st ∧
  ∀ path, path ≠ outputFilePath w (this st) →
          tmpfiles (final (pack w st)) !! path = tmpfiles st !! path.
Proof.
  intros Hpack.
  destruct (folderListing w (codeFolder (code (this st)))) as [d|] eqn:Hd.
  - rewrite (pack_ok w st d Hd) in Hpack. discriminate Hpack.
  - rewrite (pack_fails st Hd). unfold final. simpl. split; [done|].
    intros path Hne. destruct (leftover w); [|done].
    by rewrite lookup_insert_ne.
Qed.

Lemma deploy_pack_fails_run (prev : option Instance) (st : St) (e : Error) :
  outcome (pack w st) = Throw e →
  deploy w prev st = (Throw e, final (pack w st), events (pack w st)).
Proof.
  intros Hpack. unfold deploy. by rewrite (bind_throw _ _ _ _ Hpack).
Qed.

(** The runs of a deploy: packaging fails, or the role is missing, or the
    provider is reached. *)
Lemma deploy_runs (prev : option Instance) (st : St) :
  (∃ e, outcome (pack w st) = Throw e ∧
        deploy w prev st = (Throw e, final (pack w st), events (pack w st))) ∨
  (∃ d, folderListing w (codeFolder (code (this st))) = Some d ∧
        role (this st) = None) ∨
  (∃ d r, folderListing w (codeFolder (code (this st))) = Some d ∧
          role (this st) = Some r).
Proof.
  destruct (outcome (pack w st)) as [buf|e] eqn:Hpack.
  - destruct (pack_outcome w st buf Hpack) as (d & Hd).
    destruct (role (this st)) as [r|] eqn:Hr.
    + right; right. by exists d, r.
    + right; left. by exists d.
  - left. exists e. split; [done|]. by apply deploy_pack_fails_run.
Qed.

Lemma set_arn_same (i : Instance) (z : option string) :
  set_zip z i = set_arn (arn i) (set_zip z i).
Proof. by destruct i. Qed.

(** What a deploy leaves in [this]: the instance with, at most, another
    archive and another identifier. *)
Lemma deploy_final_this (prev : option Instance) (st : St) :
  ∃ a z, this (final (deploy w prev st)) = set_arn a (set_zip z (this st)).
Proof.
  destruct (deploy_runs prev st)
    as [(e & Hpack & ->)|[(d & Hd & Hr)|(d & r & Hd & Hr)]].
  - exists (arn (this st)), (zip (this st)).
    change (this (final (pack w st)) = set_arn (arn (this st))
                                         (set_zip (zip (this st)) (this st))).
    rewrite (proj1 (pack_fails_state st e Hpack)). by destruct st as [[] ?].
  - rewrite (deploy_no_role w prev st d Hd Hr).
    eexists (arn (this st)), _. unfold final. simpl. apply set_arn_same.
  - rewrite (deploy_after_pack w prev st d r Hd Hr). unfold final.
    destruct (createBranch (this st) prev); simpl.
    + destruct (lambda w (createFunction _)); simpl;
        [eexists _, _; reflexivity|].
      eexists (arn (this st)), _. apply set_arn_same.
    + destruct (lambda w (updateFunctionCode _)); simpl;
        [destruct (lambda w (updateFunctionConfiguration _)); simpl|];
        [eexists _, _; reflexivity| |];
        eexists (arn (this st)), _; apply set_arn_same.
Qed.

(** Property X8: the fingerprint depends on the code location through its
    directory alone: two sets of inputs with the same directory, whatever
    shim files come with it, get the same fingerprint, or the same error. *)
Theorem fingerprint_ignores_shims (i1 i2 : Inputs) :
  codeFolder (in_code i1) = codeFolder (in_code i2) →
  match construct w i1, construct w i2 with
  | Ok a, Ok b => hash a = hash b
  | Throw e1, Throw e2 => e1 = e2
  | _, _ => False
  end.
Proof.
  intros H. unfold construct, hashElement, Utils.resolve. rewrite H.
  by destruct (folderListing w (codeFolder (in_code i2))).
Qed.

(** Property X9: a [pack] that completes returns the archive that it leaves
    in [this.zip] and in its output file, which stays in the temporary
    directory; no other file and no other field of the instance changes. *)
Theorem pack_round_trip (st : St) (buf : Buffer) :
  outcome (pack w st) = Ok buf →
  let st' := final (pack w st) in
  zip (this st') = Some buf ∧
  tmpfiles st' !! outputFilePath w (this st) = Some buf ∧
  (∀ path, path ≠ outputFilePath w (this st) →
           tmpfiles st' !! path = tmpfiles st !! path) ∧
  set_zip (zip (this st)) (this st') = this st.
Proof.
  intros Hpack. destruct (pack_outcome w st buf Hpack) as (d & Hd).
  rewrite (pack_ok w st d Hd) in *. injection Hpack as <-. simpl.
  split_and!; [done|by rewrite lookup_insert_eq| |by destruct (this st)].
  intros path Hne. by rewrite lookup_insert_ne.
Qed.

(** Property X10: a [pack] that throws has assigned nothing to the
    instance, asked the provider nothing and touched no temporary file but
    its own output file; the [deploy] it runs in throws the same error and
    leaves the instance as it was, archive and identifier included. *)
Theorem pack_failure_changes_nothing (prev : option Instance) (st : St)
    (e : Error) :
  outcome (pack w st) = Throw e →
  this (final (pack w st)) = this st ∧
  calls (events (pack w st)) = [] ∧
  (∀ path, path ≠ outputFilePath w (this st) →
           tmpfiles (final (pack w st)) !! path = tmpfiles st !! path) ∧
  outcome (deploy w prev st) = Throw e ∧
  this (final (deploy w prev st)) = this st.
Proof.
  intros Hpack. destruct (pack_fails_state st e Hpack) as [Hthis Hfiles].
  split_and!; [done|apply pack_no_calls|done| |];
    by rewrite (deploy_pack_fails_run prev st e Hpack).
Qed.

(** Property X11: whatever its outcome, [deploy] changes nothing of the
    instance but the archive and the identifier, and no temporary file but
    the output file of [pack]. *)
Theorem deploy_frame (prev : option Instance) (st : St) :
  let st' := final (deploy w prev st) in
  set_arn (arn (this st)) (set_zip (zip (this st)) (this st')) = this st ∧
  ∀ path, path ≠ outputFilePath w (this st) →
          tmpfiles st' !! path = tmpfiles st !! path.
Proof.
  cbv zeta. split.
  - destruct (deploy_final_this prev st) as (a & z & ->). by destruct st as [[] ?].
  - destruct (deploy_runs prev st)
      as [(e & Hpack & ->)|[(d & Hd & Hr)|(d & r & Hd & Hr)]].
    + apply (pack_fails_state st e Hpack).
    + rewrite (deploy_no_role w prev st d Hd Hr). unfold final. simpl.
      intros path Hne. by rewrite lookup_insert_ne.
    + rewrite (deploy_after_pack w prev st d r Hd Hr). unfold final.
      destruct (createBranch (this st) prev); simpl.
      * destruct (lambda w (createFunction _)); simpl; intros path Hne;
          by rewrite lookup_insert_ne.
      * destruct (lambda w (updateFunctionCode _)); simpl;
          [destruct (lambda w (updateFunctionConfiguration _)); simpl|];
          intros path Hne; by rewrite lookup_insert_ne.
Qed.

(** Property X12: a [deploy] that throws leaves the identifier of the
    instance as it was. *)
Theorem deploy_failure_keeps_identifier (prev : option Instance) (st : St)
    (e : Error) :
  outcome (deploy w prev st) = Throw e →
  getId (this (final (deploy w prev st))) = getId (this st).
Proof.
  destruct (deploy_runs prev st)
    as [(e' & Hpack & ->)|[(d & Hd & Hr)|(d & r & Hd & Hr)]].
  - intros _. change (getId (this (final (pack w st))) = getId (this st)).
    by rewrite (proj1 (pack_fails_state st e' Hpack)).
  - by rewrite (deploy_no_role w prev st d Hd Hr).
  - rewrite (deploy_after_pack w prev st d r Hd Hr).
    destruct (createBranch (this st) prev); simpl.
    + by destruct (lambda w (createFunction _)).
    + destruct (lambda w (updateFunctionCode _)); simpl; [|done].
      by destruct (lambda w (updateFunctionConfiguration _)).
Qed.

(** Property X13: [deploy] never asks the provider to delete a function,
    not even when it creates one under a new name, and it makes two calls
    at most. *)
Theorem deploy_never_deletes (prev : option Instance) (st : St) :
  let cs := calls (events (deploy w prev st)) in
  forallb (fun req => negb (isDelete req)) cs = true ∧ (length cs ≤ 2)%nat.
Proof.
  destruct (deploy_runs prev st)
    as [(e' & _ & ->)|[(d & Hd & Hr)|(d & r & Hd & Hr)]].
  - cbv zeta. change (events (Throw e', final (pack w st), events (pack w st)))
      with (events (pack w st)).
    rewrite pack_no_calls. simpl. split; [done|lia].
  - rewrite (deploy_no_role w prev st d Hd Hr). simpl. split; [done|lia].
  - rewrite (deploy_after_pack w prev st d r Hd Hr).
    destruct (createBranch (this st) prev); simpl.
    + destruct (lambda w (createFunction _)); simpl; split; (done || lia).
    + destruct (lambda w (updateFunctionCode _)); simpl;
        [destruct (lambda w (updateFunctionConfiguration _)); simpl|];
        split; (done || lia).
Qed.

(** Property X14: on the update branch, when the code update succeeds and
    the configuration update fails, [deploy] throws the error of the
    configuration update after both calls: the new code is with the
    provider, the instance holds the new archive and its old identifier. *)
Theorem partial_update (prev : option Instance) (st : St) (buf : Buffer)
    (r : Role) (res : Response) (e : Error) :
  outcome (pack w st) = Ok buf → role (this st) = Some r →
  createBranch (this st) prev = false →
  let self := set_zip (Some buf) (this st) in
  lambda w (updateFunctionCode (functionCodeParams self)) = Ok res →
  lambda w (updateFunctionConfiguration (functionConfigParams self r)) = Throw e →
  outcome (deploy w prev st) = Throw e ∧
  this (final (deploy w prev st)) = self ∧
  calls (events (deploy w prev st)) =
    [updateFunctionCode (functionCodeParams self);
     updateFunctionConfiguration (functionConfigParams self r)].
Proof.
  intros Hpack Hr Hb. destruct (pack_outcome w st buf Hpack) as (d & Hd).
  assert (buf = archiver w (visible dependencyCaches d)
                  (codeShims (code (this st)))) as ->.
  { rewrite (pack_ok w st d Hd) in Hpack. by injection Hpack. }
  simpl. intros Hcode Hconfig.
  rewrite (deploy_after_pack w prev st d r Hd Hr), Hb. simpl.
  by rewrite Hcode, Hconfig.
Qed.

(** *** remove *)

(** Property X16: [remove] changes nothing of the instance, whatever the
    provider answers: the identifier stays. *)
Theorem remove_changes_nothing (st : St) : final (remove w st) = st.
Proof.
  unfold remove, deleteLambda, final. run.
  destruct (lambda w (deleteFunction _)) as [res|e]; run; [done|].
  by destruct (includes "Function not found" (message e)).
Qed.

End MoreRuns.

Lemma append_empty_r (s : string) : s +:+ "" = s.
Proof. induction s as [|a s IH]; [done|]. by rewrite append_String, IH. Qed.

Lemma append_assoc (a b c : string) : (a +:+ b) +:+ c = a +:+ b +:+ c.
Proof. induction a as [|x a IH]; [done|]. by rewrite !append_String, IH. Qed.

(** The string of an error holds its message. *)
Lemma includes_message_toString (e : Error) :
  includes (message e) (toString e) = true.
Proof.
  apply includes_true. unfold toString.
  destruct (bool_decide (name e = "")).
  - exists "", "". by rewrite append_empty_r.
  - destruct (bool_decide (message e = "")) eqn:Hm.
    + apply bool_decide_eq_true in Hm. rewrite Hm. by exists "", (name e).
    + exists (name e +:+ ": "), "". by rewrite append_empty_r, append_assoc.
Qed.

(** Property X17: the error that [remove] throws is a plain Error whose
    message holds the message of the provider's error. *)
Theorem remove_keeps_provider_message (w : World) (st : St) (e : Error) :
  lambda w (deleteFunction {| d_FunctionName := functionName (this st) |}) = Throw e →
  includes "Function not found" (message e) = false →
  ∃ e', outcome (remove w st) = Throw e' ∧ name e' = "Error" ∧
        includes (message e) (message e') = true.
Proof.
  intros Hcall Hinc. exists (newError (toString e)). split_and!.
  - unfold remove, deleteLambda, outcome. run. rewrite Hcall. run.
    by rewrite Hinc.
  - done.
  - apply includes_message_toString.
Qed.


(** ** The further properties on the sample data *)

(** A shim file beside the code directory: the same fingerprint. *)
Lemma fingerprint_ignores_shims_witness :
  match construct Sample.world More.inputsShim,
        construct Sample.world Sample.inputsA with
  | Ok a, Ok b => hash a = hash b
  | Throw e1, Throw e2 => e1 = e2
  | _, _ => False
  end.
Proof.
  exact (fingerprint_ignores_shims Sample.world More.inputsShim Sample.inputsA
           eq_refl).
Defined.

(** Packing fn-a leaves the archive in [this.zip]. *)
Lemma pack_round_trip_witness :
  zip (this (final (pack Sample.world More.startA)))
    = Some "index.js=exports.handler|".
Proof.
  exact (proj1 (pack_round_trip Sample.world More.startA _
                  ltac:(vm_compute; reflexivity))).
Defined.

(** Packing fn-a without its code directory leaves fn-a as it was. *)
Lemma pack_failure_changes_nothing_witness :
  this (final (pack More.worldNoCode More.startA)) = Sample.fnA.
Proof.
  exact (proj1 (pack_failure_changes_nothing More.worldNoCode None
                  More.startA (Sample.notFound (Some "./code"))
                  ltac:(vm_compute; reflexivity))).
Defined.

(** An update that the provider refuses: the deployed fn-a keeps id-1. *)
Lemma deploy_failure_keeps_identifier_witness :
  getId (this (final (deploy Outage.world (Some Sample.deployedA)
                        More.startDeployedA)))
    = Some "id-1".
Proof.
  exact (deploy_failure_keeps_identifier Outage.world (Some Sample.deployedA)
           More.startDeployedA (mkError "ServiceException" "Rate exceeded")
           ltac:(vm_compute; reflexivity)).
Defined.

(** The code of fn-a is taken, its configuration refused. *)
Lemma partial_update_witness :
  outcome (deploy Outage.world (Some Sample.deployedA) More.startDeployedA)
    = Throw (mkError "ServiceException" "Rate exceeded").
Proof.
  exact (proj1 (partial_update Outage.world (Some Sample.deployedA)
                  More.startDeployedA "index.js=exports.handler|"
                  Sample.execRole (mkResponse "arn:code:fn-a")
                  (mkError "ServiceException" "Rate exceeded")
                  ltac:(vm_compute; reflexivity) eq_refl
                  ltac:(vm_compute; reflexivity)
                  ltac:(vm_compute; reflexivity)
                  ltac:(vm_compute; reflexivity))).
Defined.

(** Removing fn-a without the right to: a plain Error that still says so. *)
Lemma remove_keeps_provider_message_witness :
  ∃ e', outcome (remove Outage.world More.startDeployedA) = Throw e' ∧
        name e' = "Error" ∧ includes "not authorized" (message e') = true.
Proof.
  exact (remove_keeps_provider_message Outage.world More.startDeployedA
           (mkError "AccessDeniedException" "not authorized")
           ltac:(vm_compute; reflexivity) ltac:(vm_compute; reflexivity)).
Defined.


(** ** The command line handler *)

(** The stage is never falsy: the default ['dev'] is not. *)
Lemma stage_truthy (h : Cli.Host) (args : Cli.Args) :
  Cli.truthy (Some (Cli.stage h args)) = true.
Proof.
  unfold Cli.stage, Cli.orDefault, Cli.or_.
  destruct (Cli.truthy (Cli.options args !! "stage")) eqn:H1.
  - destruct (Cli.options args !! "stage"); [by rewrite H1|done].
  - destruct (Cli.instanceStage h) as [v|] eqn:H2; [|done].
    by destruct (Cli.truthy (Some v)) eqn:H3.
Qed.

(** Property X18: the stage is always truthy, so its test before the
    environment files never decides: the file of the stage is loaded
    whenever it exists, even when the default file exists too; the default
    file is loaded only when the file of the stage is missing; at most one
    file is loaded. *)
Theorem cli_env_file (h : Cli.Host) (args : Cli.Args) (env : gmap string string) :
  Cli.truthy (Some (Cli.stage h args)) = true ∧
  Cli.loadEnv h args env =
    if Cli.fileExistsSync h (Cli.stageEnvFilePath h args)
    then (Cli.dotenv_config h (Cli.stageEnvFilePath h args) env,
          [Cli.DotenvConfig (Cli.stageEnvFilePath h args)])
    else if Cli.fileExistsSync h (Cli.defaultEnvFilePath h)
    then (Cli.dotenv_config h (Cli.defaultEnvFilePath h) env,
          [Cli.DotenvConfig (Cli.defaultEnvFilePath h)])
    else (env, []).
Proof.
  split; [apply stage_truthy|]. unfold Cli.loadEnv. by rewrite stage_truthy.
Qed.

(** Property X19: [params] holds the truthy ones among the positional
    arguments 1 to 4, in their order: a positional argument that is [0] or
    empty is skipped and the later ones move up, and a fifth and later
    parameter is dropped. *)
Theorem cli_params (args : Cli.Args) :
  Cli.params args =
    List.filter Cli.truthyPrim (take 4 (drop 1 (Cli.positional args))) ∧
  (length (Cli.params args) ≤ 4)%nat.
Proof.
  unfold Cli.params, Cli.pushIf.
  destruct (Cli.positional args) as [|a [|b [|c [|d [|e l]]]]]; simpl;
    repeat (match goal with |- context [Cli.truthyPrim ?x] =>
              destruct (Cli.truthyPrim x) end; simpl);
    split; (done || lia).
Qed.

(** [delete config._] always happens: [_] holds an array. *)
Lemma config_without_positional (args : Cli.Args) (env : gmap string string) :
  Cli.config args env =
    <["debug" :=
        if Cli.envSet env "SLS_DEBUG"
        then Cli.JPrim (Cli.PStr (default "" (env !! "SLS_DEBUG")))
        else Cli.JPrim (Cli.PBool (Cli.truthy (Cli.options args !! "debug")))]>
    (<["platformStage" :=
        Cli.JPrim (Cli.PStr (if Cli.envSet env "SERVERLESS_PLATFORM_STAGE"
                             then default "" (env !! "SERVERLESS_PLATFORM_STAGE")
                             else "prod"))]>
    (delete "_" (<["params" := Cli.JArr (Cli.params args)]> (Cli.argsObject args)))).
Proof.
  unfold Cli.config, Cli.argsObject. cbv zeta.
  rewrite lookup_insert_ne by done. by rewrite lookup_insert_eq.
Qed.

(** Property X20: the configuration handed to the CLI and to the commands
    has no [_]; its [params] are the positional parameters, also when an
    option of that name was given; its [platformStage] is never empty: the
    value of SERVERLESS_PLATFORM_STAGE when that is set and not empty,
    ['prod'] otherwise; its [debug] is truthy exactly when SLS_DEBUG is set
    and not empty or the [debug] option is truthy; every other option is
    passed on as it was given. *)
Theorem cli_config_keys (args : Cli.Args) (env : gmap string string) :
  let c := Cli.config args env in
  c !! "_" = None ∧
  c !! "params" = Some (Cli.JArr (Cli.params args)) ∧
  (∃ s, c !! "platformStage" = Some (Cli.JPrim (Cli.PStr s)) ∧ s ≠ "" ∧
        (s = "prod" ∨ env !! "SERVERLESS_PLATFORM_STAGE" = Some s)) ∧
  Cli.truthy (c !! "debug") =
    Cli.envSet env "SLS_DEBUG" || Cli.truthy (Cli.options args !! "debug") ∧
  ∀ k, k ≠ "_" → k ≠ "params" → k ≠ "platformStage" → k ≠ "debug" →
       c !! k = Cli.options args !! k.
Proof.
  cbv zeta. rewrite config_without_positional. unfold Cli.argsObject.
  split_and!.
  - rewrite !lookup_insert_ne by done. apply lookup_delete_eq.
  - rewrite !lookup_insert_ne by done. rewrite lookup_delete_ne by done.
    apply lookup_insert_eq.
  - eexists. rewrite lookup_insert_ne by done. rewrite lookup_insert_eq.
    split; [done|]. unfold Cli.envSet.
    destruct (env !! "SERVERLESS_PLATFORM_STAGE") as [v|]; simpl; [|by auto].
    case_bool_decide; auto.
  - rewrite lookup_insert_eq. unfold Cli.envSet.
    destruct (env !! "SLS_DEBUG") as [v|]; simpl; [|done].
    case_bool_decide as Hv; simpl; [|done]. by rewrite bool_decide_true.
  - intros k H1 H2 H3 H4. rewrite !lookup_insert_ne by done.
    rewrite lookup_delete_ne by done. by rewrite !lookup_insert_ne.
Qed.


(** Property X22: a run of the exported function constructs the CLI first,
    from the configuration; it invokes one function at most and reports one
    error at most.  When the version is asked for, it logs the version and
    invokes nothing, whatever command is named.  Otherwise it does not log
    the version, and [cli.error] gets an error exactly when the [try] block
    threw it.  A function that [commands[command]] finds, a command of the
    module or a function the object inherits, is the one function invoked,
    and [cli.error] gets what it throws; a truthy value that is no function
    is called, which is a TypeError for [cli.error], and nothing is
    invoked; when [commands[command]] is falsy, [run] is invoked with the
    name of the command, and [cli.error] gets what [run] throws. *)
Theorem cli_run_shape (h : Cli.Host) (args : Cli.Args) (env : gmap string string) :
  let evs := (Cli.main h args env).2 in
  let cfg := Cli.config args env in
  let cmd := Cli.toStrPrim (Cli.command args) in
  head evs = Some (Cli.NewCLI cfg) ∧
  (length (List.filter isInvoke evs) ≤ 1)%nat ∧
  (length (List.filter isCliError evs) ≤ 1)%nat ∧
  (Cli.checkingVersion args = true → evs = [Cli.NewCLI cfg; Cli.LogVersion]) ∧
  (Cli.checkingVersion args = false →
     ¬ In Cli.LogVersion evs ∧
     (∀ e, In (Cli.CliError e) evs ↔ (Cli.dispatch h args cfg).1 = Throw e) ∧
     (∀ f, Cli.property h cmd = Some (Cli.Function f) →
           List.filter isInvoke evs = [Cli.Invoke cmd cfg None] ∧
           ∀ e, In (Cli.CliError e) evs ↔ f cfg None = Throw e) ∧
     (Cli.property h cmd = Some (Cli.Value true) →
           List.filter isInvoke evs = [] ∧
           ∃ e, name e = "TypeError" ∧
                List.filter isCliError evs = [Cli.CliError e]) ∧
     (∀ run, Cli.property h cmd = None ∨
             Cli.property h cmd = Some (Cli.Value false) →
             Cli.property h "run" = Some (Cli.Function run) →
           List.filter isInvoke evs
             = [Cli.Invoke "run" cfg (Some (Cli.command args))] ∧
           ∀ e, In (Cli.CliError e) evs ↔
                run cfg (Some (Cli.command args)) = Throw e)).
Proof.
  cbv zeta. unfold Cli.main.
  destruct (Cli.checkingVersion args).
  - simpl. split_and!; (done || lia).
  - unfold Cli.dispatch, Cli.runCommand.
    destruct (Cli.property h (Cli.toStrPrim (Cli.command args)))
      as [[f|[|]]|] eqn:Hcmd;
      [destruct (f _ None) as [u|e] eqn:Hf
      | |
       destruct (Cli.property h "run") as [[run|b]|] eqn:Hrun;
         [destruct (run _ _) as [u|e] eqn:Hr| |]
      |destruct (Cli.property h "run") as [[run|b]|] eqn:Hrun;
         [destruct (run _ _) as [u|e] eqn:Hr| |]];
      simpl; (split_and!; [done|lia|lia|done|]); intros _;
      (split_and!;
        [intuition discriminate
        |intros e'; intuition (discriminate || congruence)
        |intros f' Hf'; simplify_eq; try (split; [done|]);
         try (intros e'; intuition (discriminate || congruence))
        |intros Hv; simplify_eq; try (split; [done|]);
         try (eexists; split; [|reflexivity]; reflexivity)
        |intros run' Hn Hrun'; try (destruct Hn; discriminate);
         simplify_eq; try (split; [done|]);
         try (intros e'; intuition (discriminate || congruence))]).
Qed.

(** Scenario: a command the module does not know goes to [run], under its
    name. *)
Example cli_unknown_command :
  CliSample.invokedAndReported (CliSample.named "logs") =
    [Cli.Invoke "run" (Cli.config (CliSample.named "logs") CliSample.noEnv)
       (Some (Cli.PStr "logs"))].
Proof. by vm_compute. Qed.

(** Scenario: [toString] names a function that the commands object
    inherits: it is called, [run] is not, and nothing is reported. *)
Example cli_inherited_function :
  CliSample.invokedAndReported (CliSample.named "toString") =
    [Cli.Invoke "toString"
       (Cli.config (CliSample.named "toString") CliSample.noEnv) None].
Proof. by vm_compute. Qed.

(** Scenario: [__proto__] names an object: calling it is a TypeError, which
    [cli.error] gets although [run] exists. *)
Example cli_inherited_object :
  CliSample.invokedAndReported (CliSample.named "__proto__") =
    [Cli.CliError (Cli.notAFunction "commands[command]")].
Proof. by vm_compute. Qed.
